(** * Request instrumentation of the sample observability service

    A shallow embedding of [app/app.py]: the logfmt helper, the two
    instrumented handlers ([index], [hello]), the liveness probe ([health])
    and the export endpoint ([metrics]), together with the process-wide
    state they act on (the two Prometheus metrics, the log sink, the
    tracer), and the properties of the request pipeline.

    Conventions.
    - Python [str] is [string]; a character is an [ascii].
    - Python [float] (clock readings, durations, the histogram sum) is
      an exact rational [Q]; the textual form of a float is a parameter.
    - A handler is a computation over the process state that either
      returns a value or raises; state changes made before a raise stay.
    - The environment is a parameter of the application: the readings of
      the wall clock, in the order they are taken, and the fate of each
      sleep, which either returns or is cut short by an exception. The
      sleep is the only statement in the body of a handler that can fail.
    - The metrics, tracing and logging libraries are not part of the
      application; what the handlers need of them is modelled next to the
      call that uses it.
    - Besides the state, the process keeps a trace of what its handlers
      did, in order; the trace is how the order of the steps is stated. *)

From Stdlib Require Import String Ascii List Bool Arith ZArith QArith Qround Qabs Lia.
From Stdlib Require Import DecimalString.
Import ListNotations.

Local Open Scope list_scope.
Local Open Scope string_scope.

(** ** Characters and strings *)

Module Str.

Definition nl : string := String (ascii_of_nat 10) EmptyString.
Definition tab : string := String (ascii_of_nat 9) EmptyString.
Definition dquote : string := String (ascii_of_nat 34) EmptyString.

Definition space : ascii := ascii_of_nat 32.
Definition underscore : ascii := ascii_of_nat 95.

(** [s.replace(old, new)] for one-character [old] and [new]. *)
Fixpoint replace (old new : ascii) (s : string) : string :=
  match s with
  | EmptyString => EmptyString
  | String c rest =>
      String (if Ascii.eqb c old then new else c) (replace old new rest)
  end.

(** [c in s]. *)
Fixpoint mem (c : ascii) (s : string) : bool :=
  match s with
  | EmptyString => false
  | String d rest => Ascii.eqb d c || mem c rest
  end.

(** [s[:n]]. *)
Definition slice_to (n : nat) (s : string) : string := substring 0 n s.

(** [sep.join(parts)]. *)
Definition join (sep : string) (parts : list string) : string :=
  String.concat sep parts.

(** ASCII lower case, as used to compare header names. *)
Definition lower_char (c : ascii) : ascii :=
  let n := nat_of_ascii c in
  if (65 <=? n)%nat && (n <=? 90)%nat then ascii_of_nat (n + 32) else c.

Fixpoint lower (s : string) : string :=
  match s with
  | EmptyString => EmptyString
  | String c rest => String (lower_char c) (lower rest)
  end.

(** [sub in s], as a proposition. *)
Definition contains (sub s : string) : Prop :=
  exists pre post, s = pre ++ sub ++ post.

(** The characters Python's [str.isspace] accepts in the ASCII range. *)
Definition is_whitespace (c : ascii) : bool :=
  let n := nat_of_ascii c in
  ((9 <=? n)%nat && (n <=? 13)%nat) || (n =? 32)%nat.

(** [s.split(sep)] for a one-character [sep]: the pieces between the
    separators, empty pieces included; a string without [sep] is one piece. *)
Fixpoint split_on (sep : ascii) (s : string) : list string :=
  match s with
  | EmptyString => [EmptyString]
  | String c rest =>
      if Ascii.eqb c sep then EmptyString :: split_on sep rest
      else
        match split_on sep rest with
        | [] => [String c EmptyString]
        | piece :: pieces => String c piece :: pieces
        end
  end.

(** [s.split(sep, 1)] when [sep] occurs: what stands before the first
    [sep] and what stands after it. *)
Fixpoint split_once (sep : ascii) (s : string) : option (string * string) :=
  match s with
  | EmptyString => None
  | String c rest =>
      if Ascii.eqb c sep then Some (EmptyString, rest)
      else
        match split_once sep rest with
        | Some (before, after) => Some (String c before, after)
        | None => None
        end
  end.

Definition equals : ascii := ascii_of_nat 61.

End Str.

(** ** Python values and insertion-ordered dictionaries *)

(** The values the handlers pass to [logfmt]. *)
Inductive PyValue : Type :=
| PStr (s : string)
| PInt (z : Z)
| PFloat (q : Q)
| PNone.

(** [str(n)] for an [int]. *)
Definition str_int (z : Z) : string := NilZero.string_of_int (Z.to_int z).

(** A Python [dict]: keys are kept in the order of their first insertion. *)
Definition dict (K V : Type) : Type := list (K * V).

Fixpoint dict_get {K V : Type} (eqb : K -> K -> bool) (k : K) (d : dict K V)
  : option V :=
  match d with
  | [] => None
  | (k', v) :: rest => if eqb k' k then Some v else dict_get eqb k rest
  end.

(** [d.setdefault(k, init)] followed by [d[k] = f(d[k])]. *)
Fixpoint dict_update {K V : Type} (eqb : K -> K -> bool) (k : K)
  (f : V -> V) (init : V) (d : dict K V) : dict K V :=
  match d with
  | [] => [(k, f init)]
  | (k', v) :: rest =>
      if eqb k' k then (k', f v) :: rest
      else (k', v) :: dict_update eqb k f init rest
  end.

(** ** The process state *)

(** Label values of [REQUESTS], in the declared order path, method, status. *)
Definition Labels3 : Type := string * string * string.
(** Label values of [REQ_LATENCY], in the declared order path, method. *)
Definition Labels2 : Type := string * string.

Definition labels3_eqb (a b : Labels3) : bool :=
  let '(p, m, s) := a in
  let '(p', m', s') := b in
  String.eqb p p' && String.eqb m m' && String.eqb s s'.

Definition labels2_eqb (a b : Labels2) : bool :=
  let '(p, m) := a in
  let '(p', m') := b in
  String.eqb p p' && String.eqb m m'.

(** An upper bound of a histogram bucket. *)
Inductive Bound : Type :=
| Le (q : Q)
| Inf.

Definition le_bound (amount : Q) (b : Bound) : bool :=
  match b with
  | Le q => Qle_bool amount q
  | Inf => true
  end.

(** Modelled from the spec: the bucket boundaries of a histogram, an
    ascending sequence of upper bounds whose last bucket is +infinity.
    [REQ_LATENCY] is declared without boundaries, so it has the library's
    default ones. *)
Definition DEFAULT_BUCKETS : list Bound :=
  [Le (5 # 1000); Le (1 # 100); Le (25 # 1000); Le (5 # 100); Le (75 # 1000);
   Le (1 # 10); Le (25 # 100); Le (5 # 10); Le (75 # 100); Le 1;
   Le (25 # 10); Le 5; Le (75 # 10); Le 10; Inf].

(** One labelled child of a histogram: the sum of the observed values and
    one count per bucket (not cumulative). *)
Record HistChild : Type := mkHistChild {
  h_sum : Q;
  h_buckets : list nat
}.

Definition new_child : HistChild :=
  mkHistChild 0 (map (fun _ => O) DEFAULT_BUCKETS).

(** The first bucket whose bound admits [amount] gets one more. *)
Fixpoint bucket_observe (amount : Q) (bounds : list Bound) (counts : list nat)
  : list nat :=
  match bounds, counts with
  | b :: bs, c :: cs =>
      if le_bound amount b then S c :: cs
      else c :: bucket_observe amount bs cs
  | _, _ => counts
  end.

(** [observe] on one child, as the metrics library does it: the value is
    added to the sum and counted in its bucket. The library takes any
    amount; unlike the registry of the design it does not reject a
    negative one. *)
Definition child_observe (amount : Q) (h : HistChild) : HistChild :=
  mkHistChild (h_sum h + amount) (bucket_observe amount DEFAULT_BUCKETS (h_buckets h)).

Inductive SpanStatus : Type := StatusUnset | StatusError.

Record Span : Type := mkSpan {
  span_name : string;
  span_attributes : list (string * string);
  span_status : SpanStatus
}.

(** An exception of class [Exception]; what ends the interpreter itself
    is not modelled. *)
Inductive Exn : Type := Exception (what : string).

(** What a request does to the outside, in the order it does it. *)
Inductive Event : Type :=
| EvSpanStart (name : string)
| EvSetAttribute (key value : string)
| EvSleep (secs : Q)
| EvSpanEnd (name : string) (status : SpanStatus)
| EvCounterInc (l : Labels3)
| EvObserve (l : Labels2) (amount : Q)
| EvLog (msg : string).

(** A record handed to the logging handler: [log.info(msg)]. *)
Record LogRecord : Type := mkLogRecord {
  levelname : string;
  message : string
}.

(** The part of the process the application code itself acts on: its two
    metrics, the records it logs through its logger [log], the spans its
    handlers open, and the readings it has taken of the environment.
    What the framework and its instrumentation add on their own around a
    handler (a server span for every routed request, an error record when
    a handler raises) is not part of this state. *)
Record World : Type := mkWorld {
  REQUESTS : dict Labels3 nat;
  REQ_LATENCY : dict Labels2 HistChild;
  log_sink : list LogRecord;
  open_spans : list Span;
  finished_spans : list Span;
  trace : list Event;
  ticks : nat;
  naps : nat
}.

(** The state of a freshly started process. *)
Definition init_world : World := mkWorld [] [] [] [] [] [] 0 0.

Definition emit (e : Event) (w : World) : World :=
  mkWorld (REQUESTS w) (REQ_LATENCY w) (log_sink w) (open_spans w)
    (finished_spans w) (trace w ++ [e]) (ticks w) (naps w).

(** The request object of the front end, as far as the handlers read it. *)
Record Request : Type := mkRequest {
  remote_addr : option string;
  headers : list (string * string)
}.

(** [headers.get(key, default)]: header names compare without case. *)
Fixpoint headers_get (key default : string) (hs : list (string * string))
  : string :=
  match hs with
  | [] => default
  | (k, v) :: rest =>
      if String.eqb (Str.lower k) (Str.lower key) then v
      else headers_get key default rest
  end.

(** What a handler returns: [(body, status)] or [(body, status, headers)]. *)
Record Response : Type := mkResponse {
  resp_body : string;
  resp_status : Z;
  resp_headers : list (string * string)
}.

(** The routes of the application, as the front end matches them. *)
Inductive Endpoint : Type :=
| GetHealthz
| GetIndex
| GetHello (name : string)
| GetMetrics.

(** ** Computations that may raise *)

Inductive Outcome (A : Type) : Type :=
| Return (a : A)
| Raise (e : Exn).
Arguments Return {A} a.
Arguments Raise {A} e.

Definition M (A : Type) : Type := World -> Outcome A * World.

Definition ret {A : Type} (a : A) : M A := fun w => (Return a, w).

Definition bind {A B : Type} (c : M A) (k : A -> M B) : M B :=
  fun w =>
    match c w with
    | (Return a, w') => k a w'
    | (Raise e, w') => (Raise e, w')
    end.

Declare Scope py_scope.
Delimit Scope py_scope with py.
Notation "x <- c ;; k" := (bind c (fun x => k))
  (at level 61, c at next level, right associativity) : py_scope.
Notation "c ;; k" := (bind c (fun _ => k))
  (at level 61, right associativity) : py_scope.

(** ** A concrete environment

    One environment to run the application in: a clock that advances by
    40 ms from one reading to the next, a request from a command-line
    client, and the two ways a sleep can go. *)

Module Sample.

(** Drops the zeros at the end of a run of digits. *)
Fixpoint strip_zeros (digits : string) : string :=
  match digits with
  | EmptyString => EmptyString
  | String c rest =>
      match strip_zeros rest with
      | EmptyString =>
          if Ascii.eqb c (ascii_of_nat 48) then EmptyString
          else String c EmptyString
      | kept => String c kept
      end
  end.

Fixpoint zeros (n : nat) : string :=
  match n with
  | O => EmptyString
  | S n' => String (ascii_of_nat 48) (zeros n')
  end.

(** A decimal text of a number: sign, whole part, a point and up to six
    decimals, at least one. *)
Definition float_str (q : Q) : string :=
  let a := Qabs q in
  let whole := Qfloor a in
  let micro := str_int (Qfloor ((a - inject_Z whole) * 1000000)) in
  let decimals := strip_zeros (zeros (6 - String.length micro) ++ micro) in
  (if Qle_bool 0 q then EmptyString else "-")
  ++ str_int whole ++ "."
  ++ (match decimals with EmptyString => "0" | _ => decimals end).

(** Rounds to one decimal, a tie going to the even digit. *)
Definition round1 (q : Q) : Q :=
  let x := q * 10 in
  let n := Qfloor x in
  let up :=
    match Qcompare (x - inject_Z n) (1 # 2) with
    | Lt => false
    | Gt => true
    | Eq => Z.odd n
    end in
  inject_Z (if up then n + 1 else n) / 10.

Definition clock (n : nat) : Q := inject_Z (Z.of_nat n) * (4 # 100).

Definition calm : nat -> option Exn := fun _ => None.

Definition cut_short : nat -> option Exn :=
  fun _ => Some (Exception "request timed out").

Definition content_type : string := "text/plain; version=0.0.4; charset=utf-8".

Definition request : Request :=
  mkRequest (Some "10.0.0.7")
    [("Host", "localhost:8000"); ("user-agent", "curl 8.5.0")].

Definition two_requests : list (Endpoint * Request) :=
  [(GetIndex, request); (GetHello "world", request)].

Definition probes : list (Endpoint * Request) :=
  [(GetHealthz, request); (GetMetrics, request)].

(** A value with a tab in it. *)
Definition tabbed : list (string * PyValue) :=
  [("name", PStr ("a" ++ Str.tab ++ "b"))].

(** A name that holds a line break. *)
Definition two_lines : string := "a" ++ Str.nl ++ "b".

(** A name written to look like further fields. *)
Definition forged : string := "x status=500 event=login".

Definition mixed : list (Endpoint * Request) :=
  [(GetHealthz, request); (GetIndex, request); (GetMetrics, request);
   (GetHello forged, request); (GetHealthz, request)].

(** Fields whose values hold an equals sign and a space. *)
Definition tricky : list (string * PyValue) :=
  [("query", PStr "a=b c"); ("n", PInt 7)].

(** Another client. *)
Definition other_request : Request :=
  mkRequest None [("User-Agent", "Mozilla/5.0 (X11; Linux x86_64)")].

(** A clock that is set back after its first reading. *)
Definition set_back (n : nat) : Q :=
  match n with
  | O => 1
  | S _ => 1 # 2
  end.

(** A name that holds a tab. *)
Definition tab_name : string := "x" ++ Str.tab ++ "status=500".

End Sample.

(** ** The application *)

Section App.

Local Open Scope py_scope.

(** [str(x)] for a [float]. *)
Variable float_str : Q -> string.
(** [round(x, 1)]. *)
Variable round1 : Q -> Q.
(** The wall clock: [clock n] is what the n-th call of [time.time()] that
    the handlers make in the life of the process returns. *)
Variable clock : nat -> Q.
(** What happens to the n-th [time.sleep] of the handlers: [None] when it
    returns after the delay, [Some e] when it is cut short by the exception
    [e] (a timeout applied by the host, a failure raised into the handler). *)
Variable interrupt : nat -> option Exn.
(** The content type of the metrics exposition, a constant of the library. *)
Variable CONTENT_TYPE_LATEST : string.

(** *** Logging *)

Definition py_str (v : PyValue) : string :=
  match v with
  | PStr s => s
  | PInt z => str_int z
  | PFloat q => float_str q
  | PNone => "None"
  end.

(** The body of the loop of [logfmt]: one more part. *)
Definition logfmt_part (parts : list string) (kv : string * PyValue)
  : list string :=
  let '(k, v) := kv in
  let s := Str.replace Str.space Str.underscore (py_str v) in
  (parts ++ [(k ++ "=" ++ s)%string])%list.

Definition logfmt (fields : list (string * PyValue)) : string :=
  let parts := fold_left logfmt_part fields [] in
  Str.join " " parts.

(** The line the configured formatter writes for a record, given the text
    of its timestamp. *)
Definition format_record (asctime : string) (r : LogRecord) : string :=
  "ts=" ++ Str.dquote ++ asctime ++ Str.dquote ++ " level=" ++ levelname r
  ++ " msg=" ++ Str.dquote ++ message r ++ Str.dquote.

(** [log.info(msg)]: the logger is at level INFO, so the record is
    written. [log_sink] holds the records of [log], the logger of the
    application, and no record of another logger. *)
Definition log_info (msg : string) : M unit :=
  fun w =>
    let w := emit (EvLog msg) w in
    (Return tt,
     mkWorld (REQUESTS w) (REQ_LATENCY w)
       (log_sink w ++ [mkLogRecord "INFO" msg]) (open_spans w)
       (finished_spans w) (trace w) (ticks w) (naps w)).

(** *** Time *)

(** [time.time()]: the next reading of the wall clock. *)
Definition time_time : M Q :=
  fun w =>
    (Return (clock (ticks w)),
     mkWorld (REQUESTS w) (REQ_LATENCY w) (log_sink w) (open_spans w)
       (finished_spans w) (trace w) (S (ticks w)) (naps w)).

(** [time.sleep(secs)]: returns, or raises what cuts the sleep short. *)
Definition time_sleep (secs : Q) : M unit :=
  fun w =>
    let w := emit (EvSleep secs) w in
    let w' :=
      mkWorld (REQUESTS w) (REQ_LATENCY w) (log_sink w) (open_spans w)
        (finished_spans w) (trace w) (ticks w) (S (naps w)) in
    match interrupt (naps w) with
    | None => (Return tt, w')
    | Some e => (Raise e, w')
    end.

(** *** Metrics *)

(** Modelled from the spec: [REQUESTS.labels(path, method, status).inc()]
    increments the matching counter by 1 and creates the storage of the
    label combination on first use. *)
Definition counter_inc (l : Labels3) : M unit :=
  fun w =>
    let w := emit (EvCounterInc l) w in
    (Return tt,
     mkWorld (dict_update labels3_eqb l S O (REQUESTS w)) (REQ_LATENCY w)
       (log_sink w) (open_spans w) (finished_spans w) (trace w) (ticks w)
       (naps w)).

(** Modelled from the spec: [REQ_LATENCY.labels(path, method).observe(v)]
    records the observation into the matching histogram, created on first
    use. No sign is checked on the way. *)
Definition hist_observe (l : Labels2) (amount : Q) : M unit :=
  fun w =>
    let w := emit (EvObserve l amount) w in
    (Return tt,
     mkWorld (REQUESTS w)
       (dict_update labels2_eqb l (child_observe amount) new_child (REQ_LATENCY w))
       (log_sink w) (open_spans w) (finished_spans w) (trace w) (ticks w)
       (naps w)).

(** *** Tracing *)

Definition push_span (s : Span) (w : World) : World :=
  mkWorld (REQUESTS w) (REQ_LATENCY w) (log_sink w) (s :: open_spans w)
    (finished_spans w) (trace w) (ticks w) (naps w).

(** Modelled from the spec: the current span is closed with [status] and
    handed to the exporter. *)
Definition end_span (status : SpanStatus) (w : World) : World :=
  match open_spans w with
  | [] => w
  | s :: rest =>
      let w := emit (EvSpanEnd (span_name s) status) w in
      mkWorld (REQUESTS w) (REQ_LATENCY w) (log_sink w) rest
        (finished_spans w
         ++ [mkSpan (span_name s) (span_attributes s) status])
        (trace w) (ticks w) (naps w)
  end.

(** Modelled from the spec: [with tracer.start_as_current_span(name): body],
    the scoped acquisition of a span, whose end runs on every exit path of
    the block, normal return or failure. The tracer is a library; its
    context manager marks the span as failed when the body raises and lets
    the exception through, as a [with] block does unless the manager
    swallows it. *)
Definition start_as_current_span {A : Type} (name : string) (body : M A)
  : M A :=
  fun w =>
    let w := push_span (mkSpan name [] StatusUnset) (emit (EvSpanStart name) w) in
    match body w with
    | (Return a, w') => (Return a, end_span StatusUnset w')
    | (Raise e, w') => (Raise e, end_span StatusError w')
    end.

(** Modelled from the spec: [span.set_attribute(key, value)] attaches the
    pair to the still-open current span; it never raises. *)
Definition set_attribute (key value : string) : M unit :=
  fun w =>
    let w := emit (EvSetAttribute key value) w in
    (Return tt,
     match open_spans w with
     | [] => w
     | s :: rest =>
         mkWorld (REQUESTS w) (REQ_LATENCY w) (log_sink w)
           (mkSpan (span_name s) (span_attributes s ++ [(key, value)])
              (span_status s) :: rest)
           (finished_spans w) (trace w) (ticks w) (naps w)
     end).

(** *** The text exposition *)

Definition label_pair (k v : string) : string :=
  k ++ "=" ++ Str.dquote ++ v ++ Str.dquote.

Definition counter_sample (kv : Labels3 * nat) : string :=
  let '((p, m, s), n) := kv in
  "app_requests_total{" ++ label_pair "method" m ++ "," ++ label_pair "path" p
  ++ "," ++ label_pair "status" s ++ "} "
  ++ float_str (inject_Z (Z.of_nat n)) ++ Str.nl.

Definition bound_str (b : Bound) : string :=
  match b with
  | Le q => float_str q
  | Inf => "+Inf"
  end.

(** The bucket samples of one child are cumulative. *)
Fixpoint bucket_samples (p m : string) (acc : nat) (bounds : list Bound)
  (counts : list nat) : string :=
  match bounds, counts with
  | b :: bs, c :: cs =>
      "app_request_latency_seconds_bucket{" ++ label_pair "le" (bound_str b)
      ++ "," ++ label_pair "method" m ++ "," ++ label_pair "path" p ++ "} "
      ++ float_str (inject_Z (Z.of_nat (acc + c))) ++ Str.nl
      ++ bucket_samples p m (acc + c) bs cs
  | _, _ => EmptyString
  end.

Definition hist_samples (kv : Labels2 * HistChild) : string :=
  let '((p, m), h) := kv in
  let ls := "{" ++ label_pair "method" m ++ "," ++ label_pair "path" p ++ "} " in
  bucket_samples p m 0 DEFAULT_BUCKETS (h_buckets h)
  ++ "app_request_latency_seconds_count" ++ ls
  ++ float_str (inject_Z (Z.of_nat (list_sum (h_buckets h)))) ++ Str.nl
  ++ "app_request_latency_seconds_sum" ++ ls ++ float_str (h_sum h) ++ Str.nl.

(** Modelled from the spec: [export()] produces a deterministic textual
    snapshot of all registered metrics and their current values and
    buckets. The snapshot is a function of the two metrics the application
    registers (what the library adds about the process itself is left
    out); samples come in the order the label combinations were first
    used, and the label values of this application need no escaping. *)
Definition generate_latest (w : World) : string :=
  "# HELP app_requests_total Total HTTP requests" ++ Str.nl
  ++ "# TYPE app_requests_total counter" ++ Str.nl
  ++ String.concat EmptyString (map counter_sample (REQUESTS w))
  ++ "# HELP app_request_latency_seconds Request latency in seconds" ++ Str.nl
  ++ "# TYPE app_request_latency_seconds histogram" ++ Str.nl
  ++ String.concat EmptyString (map hist_samples (REQ_LATENCY w)).

(** *** The handlers *)

Definition health : M Response :=
  ret (mkResponse ("ok" ++ Str.nl) 200 []).

Definition py_opt_str (o : option string) : PyValue :=
  match o with
  | Some s => PStr s
  | None => PNone
  end.

Definition index (request : Request) : M Response :=
  start <- time_time ;;
  r <- start_as_current_span "index-handler"
         (time_sleep (5 # 100) ;;
          ret ("Hello from sample app!" ++ Str.nl, 200%Z)) ;;
  let '(resp_text, status) := r in
  counter_inc ("/", "GET", str_int status) ;;
  t1 <- time_time ;;
  hist_observe ("/", "GET") (t1 - start) ;;
  t2 <- time_time ;;
  log_info (logfmt
    [("event", PStr "request");
     ("path", PStr "/");
     ("method", PStr "GET");
     ("status", PInt status);
     ("duration_ms", PFloat (round1 ((t2 - start) * 1000)));
     ("client_ip", py_opt_str (remote_addr request));
     ("user_agent",
      PStr (Str.slice_to 100 (headers_get "User-Agent" EmptyString (headers request))))]) ;;
  ret (mkResponse resp_text status []).

Definition hello (request : Request) (name : string) : M Response :=
  start <- time_time ;;
  r <- start_as_current_span "hello-handler"
         (set_attribute "app.user_name" name ;;
          time_sleep (3 # 100) ;;
          ret ("Hello " ++ name ++ "!" ++ Str.nl, 200%Z)) ;;
  let '(resp_text, status) := r in
  counter_inc ("/hello", "GET", str_int status) ;;
  t1 <- time_time ;;
  hist_observe ("/hello", "GET") (t1 - start) ;;
  t2 <- time_time ;;
  log_info (logfmt
    [("event", PStr "request");
     ("path", PStr "/hello");
     ("method", PStr "GET");
     ("status", PInt status);
     ("name", PStr name);
     ("duration_ms", PFloat (round1 ((t2 - start) * 1000)));
     ("client_ip", py_opt_str (remote_addr request))]) ;;
  ret (mkResponse resp_text status []).

Definition metrics : M Response :=
  fun w =>
    (Return (mkResponse (generate_latest w) 200
               [("Content-Type", CONTENT_TYPE_LATEST)]),
     w).

(** *** The front end *)

Definition dispatch (ep : Endpoint) (request : Request) : M Response :=
  match ep with
  | GetHealthz => health
  | GetIndex => index request
  | GetHello name => hello request name
  | GetMetrics => metrics
  end.

(** The state after the handler of a request has run; a handler that
    raised leaves the state as it was when the exception left it, and the
    process goes on. This is the handler's part of a request only: the
    server span the instrumented framework ends for every routed request
    and the error record it logs for a handler that raised are not in
    [World]. *)
Definition serve (w : World) (r : Endpoint * Request) : World :=
  snd (dispatch (fst r) (snd r) w).

Definition serve_all (rs : list (Endpoint * Request)) (w : World) : World :=
  fold_left serve rs w.

(** ** Readings of the state used by the properties *)

(** The value of one counter sample; a label combination never used reads 0. *)
Definition counter_value (l : Labels3) (w : World) : nat :=
  match dict_get labels3_eqb l (REQUESTS w) with
  | Some n => n
  | None => O
  end.

Definition path_method (l : Labels3) : Labels2 :=
  let '(p, m, _) := l in (p, m).

Definition for_route (path method : string) (kv : Labels3 * nat) : bool :=
  labels2_eqb (path_method (fst kv)) (path, method).

(** [app_requests_total] summed over all statuses of one (path, method). *)
Definition counter_total (path method : string) (w : World) : nat :=
  list_sum (map snd (filter (for_route path method) (REQUESTS w))).

(** The count sample of [app_request_latency_seconds] for (path, method). *)
Definition hist_count (path method : string) (w : World) : nat :=
  match dict_get labels2_eqb (path, method) (REQ_LATENCY w) with
  | Some h => list_sum (h_buckets h)
  | None => O
  end.

(** The sum sample of [app_request_latency_seconds] for (path, method). *)
Definition hist_sum (path method : string) (w : World) : Q :=
  match dict_get labels2_eqb (path, method) (REQ_LATENCY w) with
  | Some h => h_sum h
  | None => 0
  end.

(** The wall clock is not set back while the process runs. *)
Definition clock_monotone : Prop := forall n, clock n <= clock (S n).

Definition instrumented (ep : Endpoint) : bool :=
  match ep with
  | GetIndex | GetHello _ => true
  | GetHealthz | GetMetrics => false
  end.

(** The path label an instrumented endpoint records. *)
Definition route_path (ep : Endpoint) : string :=
  match ep with
  | GetIndex => "/"
  | GetHello _ => "/hello"
  | GetHealthz => "/healthz"
  | GetMetrics => "/metrics"
  end.

(** The events a computation added to the trace. *)
Definition new_events (w w' : World) : list Event :=
  skipn (length (trace w)) (trace w').

Definition returned {A : Type} (o : Outcome A) : bool :=
  match o with
  | Return _ => true
  | Raise _ => false
  end.

Definition is_counter_inc (e : Event) : bool :=
  match e with
  | EvCounterInc _ => true
  | _ => false
  end.

Definition is_observe (e : Event) : bool :=
  match e with
  | EvObserve _ _ => true
  | _ => false
  end.

(** How many events of one kind a list holds. *)
Definition count_events (kind : Event -> bool) (evs : list Event) : nat :=
  length (filter kind evs).

(** *** The state machine of one request, in the words of the design *)

Inductive Phase : Type :=
| STARTED
| SPAN_OPEN
| HANDLER_RUNNING
| SPAN_CLOSED
| METRICS_RECORDED
| LOGGED
| DONE.

Definition phase_eqb (a b : Phase) : bool :=
  match a, b with
  | STARTED, STARTED | SPAN_OPEN, SPAN_OPEN
  | HANDLER_RUNNING, HANDLER_RUNNING | SPAN_CLOSED, SPAN_CLOSED
  | METRICS_RECORDED, METRICS_RECORDED | LOGGED, LOGGED | DONE, DONE => true
  | _, _ => false
  end.

(** The phase an event belongs to. *)
Definition phase_of (e : Event) : Phase :=
  match e with
  | EvSpanStart _ => SPAN_OPEN
  | EvSetAttribute _ _ | EvSleep _ => HANDLER_RUNNING
  | EvSpanEnd _ _ => SPAN_CLOSED
  | EvCounterInc _ | EvObserve _ _ => METRICS_RECORDED
  | EvLog _ => LOGGED
  end.

(** Consecutive events of one phase count once. *)
Fixpoint squash (ps : list Phase) : list Phase :=
  match ps with
  | [] => []
  | p :: rest =>
      match rest with
      | q :: _ => if phase_eqb p q then squash rest else p :: squash rest
      | [] => [p]
      end
  end.

(** The phases an invocation goes through: it starts, passes the phases of
    its events, and is done when it returns. *)
Definition phases_of_run (handler : M Response) (w : World) : list Phase :=
  let '(o, w') := handler w in
  (STARTED :: squash (map phase_of (new_events w w'))
   ++ (if returned o then [DONE] else []))%list.

Definition all_phases : list Phase :=
  [STARTED; SPAN_OPEN; HANDLER_RUNNING; SPAN_CLOSED; METRICS_RECORDED;
   LOGGED; DONE].

(** *** The fail-safe boundary, in the words of the design *)

Definition is_request_log (status : string) (r : LogRecord) : Prop :=
  Str.contains "event=request" (message r)
  /\ Str.contains ("status=" ++ status) (message r).

(** The handler answers 500 and still counts, times and logs the request
    exactly once. *)
Definition fail_safe (handler : M Response) (path : string) (w : World)
  : Prop :=
  exists resp w' rec,
    handler w = (Return resp, w')
    /\ resp_status resp = 500%Z
    /\ counter_value (path, "GET", "500") w'
       = S (counter_value (path, "GET", "500") w)
    /\ hist_count path "GET" w' = S (hist_count path "GET" w)
    /\ log_sink w' = (log_sink w ++ [rec])%list
    /\ is_request_log "500" rec.

(** What the handlers do instead: the exception leaves the handler after
    the span was ended as failed, and nothing is counted, timed or
    logged. *)
Definition propagates (handler : M Response) (e : Exn) (w : World) : Prop :=
  exists w' s,
    handler w = (Raise e, w')
    /\ REQUESTS w' = REQUESTS w
    /\ REQ_LATENCY w' = REQ_LATENCY w
    /\ log_sink w' = log_sink w
    /\ open_spans w' = open_spans w
    /\ finished_spans w' = (finished_spans w ++ [s])%list
    /\ span_status s = StatusError.

(** *** The log line, in the words of the design *)

(** Every whitespace character becomes an underscore. *)
Fixpoint spec_sanitize (s : string) : string :=
  match s with
  | EmptyString => EmptyString
  | String c rest =>
      String (if Str.is_whitespace c then Str.underscore else c)
        (spec_sanitize rest)
  end.

Definition spec_log_line (fields : list (string * PyValue)) : string :=
  Str.join " "
    (map (fun kv => fst kv ++ "=" ++ spec_sanitize (py_str (snd kv))) fields).

(** What [logfmt] writes for one field. *)
Definition field_text (kv : string * PyValue) : string :=
  fst kv ++ "=" ++ Str.replace Str.space Str.underscore (py_str (snd kv)).

(** ** Definitions used by the proofs *)

(** The fields [index] logs, given the second clock reading after the start. *)
Definition index_fields (request : Request) (start t2 : Q)
  : list (string * PyValue) :=
  [("event", PStr "request");
   ("path", PStr "/");
   ("method", PStr "GET");
   ("status", PInt 200);
   ("duration_ms", PFloat (round1 ((t2 - start) * 1000)));
   ("client_ip", py_opt_str (remote_addr request));
   ("user_agent",
    PStr (Str.slice_to 100
            (headers_get "User-Agent" EmptyString (headers request))))].

Definition hello_fields (request : Request) (name : string) (start t2 : Q)
  : list (string * PyValue) :=
  [("event", PStr "request");
   ("path", PStr "/hello");
   ("method", PStr "GET");
   ("status", PInt 200);
   ("name", PStr name);
   ("duration_ms", PFloat (round1 ((t2 - start) * 1000)));
   ("client_ip", py_opt_str (remote_addr request))].

(** Every child has one count per bucket. *)
Definition hists_wf (hs : dict Labels2 HistChild) : Prop :=
  Forall (fun kv => length (h_buckets (snd kv)) = length DEFAULT_BUCKETS) hs.

Definition count_at (l : Labels2) (hs : dict Labels2 HistChild) : nat :=
  match dict_get labels2_eqb l hs with
  | Some h => list_sum (h_buckets h)
  | None => O
  end.

Definition sum_at (l : Labels2) (hs : dict Labels2 HistChild) : Q :=
  match dict_get labels2_eqb l hs with
  | Some h => h_sum h
  | None => 0
  end.

Definition registry_inv (w : World) : Prop :=
  hists_wf (REQ_LATENCY w)
  /\ forall path method, hist_count path method w = counter_total path method w.

(** The latency the request starting at [w] observes. *)
Definition latency (w : World) : Q := clock (S (ticks w)) - clock (ticks w).

Definition sums_nonneg (w : World) : Prop :=
  forall path method, 0 <= hist_sum path method w.

(** One invocation of an instrumented handler, step by step: what it adds
    to the trace and the phases it goes through, when the body returns
    and when it raises. *)
Definition runs_pipeline (handler : M Response) (name path : string)
  (body : list Event) (w : World) : Prop :=
  match interrupt (naps w) with
  | None =>
      exists resp w' amount msg,
        handler w = (Return resp, w')
        /\ new_events w w'
           = ([EvSpanStart name] ++ body
              ++ [EvSpanEnd name StatusUnset;
                  EvCounterInc (path, "GET", "200");
                  EvObserve (path, "GET") amount;
                  EvLog msg])%list
        /\ phases_of_run handler w = all_phases
  | Some e =>
      exists w',
        handler w = (Raise e, w')
        /\ new_events w w'
           = ([EvSpanStart name] ++ body ++ [EvSpanEnd name StatusError])%list
        /\ phases_of_run handler w
           = [STARTED; SPAN_OPEN; HANDLER_RUNNING; SPAN_CLOSED]
  end.

Ltac run_handler H :=
  cbv [index hello bind ret time_time time_sleep start_as_current_span
       set_attribute counter_inc hist_observe log_info push_span end_span
       emit REQUESTS REQ_LATENCY log_sink open_spans finished_spans trace
       ticks naps span_name span_attributes span_status];
  rewrite H;
  cbv [index hello bind ret time_time time_sleep start_as_current_span
       set_attribute counter_inc hist_observe log_info push_span end_span
       emit REQUESTS REQ_LATENCY log_sink open_spans finished_spans trace
       ticks naps span_name span_attributes span_status];
  try change (str_int 200) with "200"%string;
  rewrite <- ?app_assoc; simpl app.

(** *** Reading a log line back *)

(** A reader of the line: the parts between spaces, each cut at its first
    equals sign. *)
Definition parse_logfmt (line : string) : list (option (string * string)) :=
  map (Str.split_once Str.equals) (Str.split_on Str.space line).

(** A key is plain when it holds neither a space nor an equals sign, as
    every keyword argument name does. *)
Definition plain_key (k : string) : bool :=
  negb (Str.mem Str.space k) && negb (Str.mem Str.equals k).

(** What a reader gets for one field. *)
Definition read_field (kv : string * PyValue) : option (string * string) :=
  Some (fst kv, Str.replace Str.space Str.underscore (py_str (snd kv))).

(** *** Counting requests, spans and records *)

Definition known_labels3 (l : Labels3) : Prop :=
  l = ("/", "GET", "200") \/ l = ("/hello", "GET", "200").

Definition known_labels2 (l : Labels2) : Prop :=
  l = ("/", "GET") \/ l = ("/hello", "GET").

(** All increments of [REQUESTS] so far. *)
Definition total_requests (w : World) : nat :=
  list_sum (map snd (REQUESTS w)).

Definition is_failed (s : Span) : bool :=
  match span_status s with
  | StatusError => true
  | StatusUnset => false
  end.

(** The spans that were ended as failed. *)
Definition failed_spans (w : World) : nat :=
  length (filter is_failed (finished_spans w)).

Definition to_instrumented (r : Endpoint * Request) : bool :=
  instrumented (fst r).

(** How many requests of a sequence go to an instrumented endpoint. *)
Definition count_instrumented (rs : list (Endpoint * Request)) : nat :=
  length (filter to_instrumented rs).

(** A span one of the two handlers opens. *)
Definition is_handler_span (s : Span) : bool :=
  String.eqb (span_name s) "index-handler"
  || String.eqb (span_name s) "hello-handler".

(** A record of a request, as [index] and [hello] write it. *)
Definition is_request_record (r : LogRecord) : bool :=
  String.prefix "event=request " (message r).

(** The spans of the handlers that were ended. *)
Definition handler_spans (w : World) : nat :=
  length (filter is_handler_span (finished_spans w)).

(** The spans of the handlers that were ended as failed. *)
Definition failed_handler_spans (w : World) : nat :=
  length (filter (fun s => is_handler_span s && is_failed s)
            (finished_spans w)).

(** The request records in the log. *)
Definition request_records (w : World) : nat :=
  length (filter is_request_record (log_sink w)).

(** The text before the name in the record of [hello]. *)
Definition before_name : string :=
  "event=request path=/hello method=GET status=200 name=".

(** The label combinations of both metrics are the known ones, each
    stored once. *)
Definition labels_inv (w : World) : Prop :=
  Forall known_labels3 (map fst (REQUESTS w))
  /\ NoDup (map fst (REQUESTS w))
  /\ Forall known_labels2 (map fst (REQ_LATENCY w))
  /\ NoDup (map fst (REQ_LATENCY w)).

(** ** Facts about strings *)

Lemma append_assoc (a b c : string) : (a ++ b) ++ c = a ++ (b ++ c).
Proof. induction a as [|x a IH]; simpl; [reflexivity | now rewrite IH]. Qed.

Lemma append_nil_r (a : string) : a ++ EmptyString = a.
Proof. induction a as [|x a IH]; simpl; [reflexivity | now rewrite IH]. Qed.

Lemma length_replace old new s :
  String.length (Str.replace old new s) = String.length s.
Proof. induction s as [|c s IH]; simpl; [reflexivity | now rewrite IH]. Qed.

Lemma get_replace old new s i :
  String.get i (Str.replace old new s) =
  option_map (fun c => if Ascii.eqb c old then new else c) (String.get i s).
Proof.
  revert i. induction s as [|c s IH]; intros [|i]; simpl; auto.
Qed.

Lemma mem_replace old new s :
  old <> new -> Str.mem old (Str.replace old new s) = false.
Proof.
  intros Hne. induction s as [|c s IH]; simpl; [reflexivity|].
  rewrite IH, orb_false_r.
  destruct (Ascii.eqb_spec c old) as [->|Hc].
  - apply Ascii.eqb_neq. congruence.
  - now apply Ascii.eqb_neq.
Qed.

Lemma length_slice_to n s :
  String.length (Str.slice_to n s) = Nat.min n (String.length s).
Proof.
  unfold Str.slice_to. revert n.
  induction s as [|c s IH]; intros [|n]; simpl; auto.
Qed.

Lemma slice_to_all n s :
  (String.length s <= n)%nat -> Str.slice_to n s = s.
Proof.
  unfold Str.slice_to. revert n.
  induction s as [|c s IH]; intros [|n] H; simpl in *; auto; try lia.
  f_equal. apply IH. lia.
Qed.

Lemma slice_to_prefix n s : exists rest, s = Str.slice_to n s ++ rest.
Proof.
  unfold Str.slice_to. revert n.
  induction s as [|c s IH]; intros [|n]; simpl.
  - now exists EmptyString.
  - now exists EmptyString.
  - now exists (String c s).
  - destruct (IH n) as [r Hr]. exists r. now rewrite <- Hr.
Qed.

Lemma contains_middle pre sub post : Str.contains sub (pre ++ sub ++ post).
Proof. now exists pre, post. Qed.

Lemma contains_append_l sub a b :
  Str.contains sub b -> Str.contains sub (a ++ b).
Proof.
  intros (pre & post & ->). exists (a ++ pre), post.
  now rewrite append_assoc.
Qed.

Lemma contains_append_r sub a b :
  Str.contains sub a -> Str.contains sub (a ++ b).
Proof.
  intros (pre & post & ->). exists pre, (post ++ b).
  now rewrite !append_assoc.
Qed.

Lemma contains_concat sub (parts : list string) s :
  In s parts -> Str.contains sub s ->
  Str.contains sub (String.concat EmptyString parts).
Proof.
  induction parts as [|p parts IH]; intros Hin Hs; [destruct Hin|].
  assert (E : String.concat EmptyString (p :: parts)
              = p ++ String.concat EmptyString parts).
  { simpl. destruct parts; [now rewrite append_nil_r | reflexivity]. }
  rewrite E. destruct Hin as [->|Hin].
  - now apply contains_append_r.
  - apply contains_append_l. now apply IH.
Qed.

Lemma skipn_new (a b : list Event) : skipn (length a) (a ++ b) = b.
Proof. induction a as [|x a IH]; simpl; auto. Qed.

(** ** Facts about dictionaries and labels *)

Lemma labels3_eqb_spec (a b : Labels3) : reflect (a = b) (labels3_eqb a b).
Proof.
  destruct a as [[p m] s], b as [[p' m'] s']. unfold labels3_eqb.
  destruct (String.eqb_spec p p'), (String.eqb_spec m m'),
    (String.eqb_spec s s'); simpl; constructor; congruence.
Qed.

Lemma labels2_eqb_spec (a b : Labels2) : reflect (a = b) (labels2_eqb a b).
Proof.
  destruct a as [p m], b as [p' m']. unfold labels2_eqb.
  destruct (String.eqb_spec p p'), (String.eqb_spec m m');
    simpl; constructor; congruence.
Qed.

Section DictFacts.

Context {K V : Type} (eqb : K -> K -> bool).
Hypothesis eqb_spec : forall a b, reflect (a = b) (eqb a b).

Lemma dict_get_update_same k f (init : V) d :
  dict_get eqb k (dict_update eqb k f init d)
  = Some (f (match dict_get eqb k d with Some v => v | None => init end)).
Proof.
  induction d as [|[k' v] d IH]; simpl.
  - destruct (eqb_spec k k); [reflexivity | congruence].
  - destruct (eqb_spec k' k) as [->|Hne]; simpl.
    + destruct (eqb_spec k k); [reflexivity | congruence].
    + destruct (eqb_spec k' k); [congruence | exact IH].
Qed.

Lemma dict_get_update_other k k' f (init : V) d :
  k' <> k ->
  dict_get eqb k' (dict_update eqb k f init d) = dict_get eqb k' d.
Proof.
  intros Hne. induction d as [|[k0 v] d IH]; simpl.
  - destruct (eqb_spec k k'); [congruence | reflexivity].
  - destruct (eqb_spec k0 k) as [->|H0]; simpl.
    + destruct (eqb_spec k k'); [congruence | reflexivity].
    + destruct (eqb_spec k0 k'); [reflexivity | exact IH].
Qed.

Lemma dict_get_In k (v : V) d : dict_get eqb k d = Some v -> In (k, v) d.
Proof.
  induction d as [|[k' v'] d IH]; simpl; [discriminate|].
  destruct (eqb_spec k' k) as [->|Hne].
  - intros [= ->]. now left.
  - intros H. right. now apply IH.
Qed.

End DictFacts.

(** ** What one invocation does to the state *)

Lemma str_int_200 : str_int 200 = "200".
Proof. reflexivity. Qed.

Lemma index_returns request w :
  interrupt (naps w) = None ->
  index request w =
  (Return (mkResponse ("Hello from sample app!" ++ Str.nl) 200 []),
   mkWorld
     (dict_update labels3_eqb ("/", "GET", "200") S O (REQUESTS w))
     (dict_update labels2_eqb ("/", "GET")
        (child_observe (clock (S (ticks w)) - clock (ticks w))) new_child
        (REQ_LATENCY w))
     (log_sink w
      ++ [mkLogRecord "INFO"
            (logfmt (index_fields request (clock (ticks w))
                       (clock (S (S (ticks w))))))])
     (open_spans w)
     (finished_spans w ++ [mkSpan "index-handler" [] StatusUnset])
     (trace w
      ++ [EvSpanStart "index-handler";
          EvSleep (5 # 100);
          EvSpanEnd "index-handler" StatusUnset;
          EvCounterInc ("/", "GET", "200");
          EvObserve ("/", "GET") (clock (S (ticks w)) - clock (ticks w));
          EvLog (logfmt (index_fields request (clock (ticks w))
                           (clock (S (S (ticks w))))))])
     (S (S (S (ticks w)))) (S (naps w))).
Proof.
  intros H. destruct w as [rq lat sink opn fin tr tk np]. simpl in H.
  run_handler H. reflexivity.
Qed.

Lemma index_raises request w e :
  interrupt (naps w) = Some e ->
  index request w =
  (Raise e,
   mkWorld (REQUESTS w) (REQ_LATENCY w) (log_sink w) (open_spans w)
     (finished_spans w ++ [mkSpan "index-handler" [] StatusError])
     (trace w
      ++ [EvSpanStart "index-handler";
          EvSleep (5 # 100);
          EvSpanEnd "index-handler" StatusError])
     (S (ticks w)) (S (naps w))).
Proof.
  intros H. destruct w as [rq lat sink opn fin tr tk np]. simpl in H.
  run_handler H. reflexivity.
Qed.

Lemma hello_returns request name w :
  interrupt (naps w) = None ->
  hello request name w =
  (Return (mkResponse ("Hello " ++ name ++ "!" ++ Str.nl) 200 []),
   mkWorld
     (dict_update labels3_eqb ("/hello", "GET", "200") S O (REQUESTS w))
     (dict_update labels2_eqb ("/hello", "GET")
        (child_observe (clock (S (ticks w)) - clock (ticks w))) new_child
        (REQ_LATENCY w))
     (log_sink w
      ++ [mkLogRecord "INFO"
            (logfmt (hello_fields request name (clock (ticks w))
                       (clock (S (S (ticks w))))))])
     (open_spans w)
     (finished_spans w
      ++ [mkSpan "hello-handler" [("app.user_name", name)] StatusUnset])
     (trace w
      ++ [EvSpanStart "hello-handler";
          EvSetAttribute "app.user_name" name;
          EvSleep (3 # 100);
          EvSpanEnd "hello-handler" StatusUnset;
          EvCounterInc ("/hello", "GET", "200");
          EvObserve ("/hello", "GET") (clock (S (ticks w)) - clock (ticks w));
          EvLog (logfmt (hello_fields request name (clock (ticks w))
                           (clock (S (S (ticks w))))))])
     (S (S (S (ticks w)))) (S (naps w))).
Proof.
  intros H. destruct w as [rq lat sink opn fin tr tk np]. simpl in H.
  run_handler H. reflexivity.
Qed.

Lemma hello_raises request name w e :
  interrupt (naps w) = Some e ->
  hello request name w =
  (Raise e,
   mkWorld (REQUESTS w) (REQ_LATENCY w) (log_sink w) (open_spans w)
     (finished_spans w
      ++ [mkSpan "hello-handler" [("app.user_name", name)] StatusError])
     (trace w
      ++ [EvSpanStart "hello-handler";
          EvSetAttribute "app.user_name" name;
          EvSleep (3 # 100);
          EvSpanEnd "hello-handler" StatusError])
     (S (ticks w)) (S (naps w))).
Proof.
  intros H. destruct w as [rq lat sink opn fin tr tk np]. simpl in H.
  run_handler H. reflexivity.
Qed.

(** ** Counting: one increment and one observation *)

Lemma counter_total_update path method l cs :
  list_sum (map snd (filter (for_route path method)
                       (dict_update labels3_eqb l S O cs)))
  = (list_sum (map snd (filter (for_route path method) cs))
     + if labels2_eqb (path_method l) (path, method) then 1 else 0)%nat.
Proof.
  unfold for_route.
  induction cs as [|[k v] cs IH]; simpl.
  - destruct (labels2_eqb (path_method l) (path, method)); reflexivity.
  - destruct (labels3_eqb_spec k l) as [->|Hne]; simpl.
    + destruct (labels2_eqb (path_method l) (path, method)); simpl; lia.
    + destruct (labels2_eqb (path_method k) (path, method)); simpl;
        rewrite IH; lia.
Qed.

Lemma bucket_observe_length amount bounds counts :
  length (bucket_observe amount bounds counts) = length counts.
Proof.
  revert counts. induction bounds as [|b bs IH]; intros [|c cs]; simpl; auto.
  destruct (le_bound amount b); simpl; auto.
Qed.

(** A value lands in exactly one bucket, because the last bound is +Inf. *)
Lemma bucket_observe_total amount bounds counts :
  length counts = length bounds -> In Inf bounds ->
  list_sum (bucket_observe amount bounds counts) = S (list_sum counts).
Proof.
  revert counts. induction bounds as [|b bs IH]; intros [|c cs] Hlen Hin;
    simpl in *; try discriminate; try contradiction.
  destruct (le_bound amount b) eqn:Hb; simpl.
  - reflexivity.
  - destruct Hin as [->|Hin]; [discriminate|].
    rewrite IH; [lia | lia | assumption].
Qed.

Lemma default_buckets_end : In Inf DEFAULT_BUCKETS.
Proof. unfold DEFAULT_BUCKETS. repeat (try (left; reflexivity); right). Qed.

Lemma child_observe_length amount h :
  length (h_buckets (child_observe amount h)) = length (h_buckets h).
Proof. apply bucket_observe_length. Qed.

Lemma new_child_length : length (h_buckets new_child) = length DEFAULT_BUCKETS.
Proof. reflexivity. Qed.

Lemma hists_wf_observe l amount hs :
  hists_wf hs ->
  hists_wf (dict_update labels2_eqb l (child_observe amount) new_child hs).
Proof.
  unfold hists_wf. induction 1 as [|[k h] hs Hh Hhs IH]; cbn [dict_update].
  - constructor; [|constructor]. cbn [snd].
    rewrite child_observe_length. exact new_child_length.
  - destruct (labels2_eqb k l); constructor; cbn [snd] in *; auto.
    now rewrite child_observe_length.
Qed.

Lemma hists_wf_get l h hs :
  hists_wf hs -> dict_get labels2_eqb l hs = Some h ->
  length (h_buckets h) = length DEFAULT_BUCKETS.
Proof.
  intros Hwf Hget.
  apply (dict_get_In labels2_eqb labels2_eqb_spec) in Hget.
  unfold hists_wf in Hwf. rewrite Forall_forall in Hwf.
  exact (Hwf _ Hget).
Qed.

Lemma child_observe_total amount h :
  length (h_buckets h) = length DEFAULT_BUCKETS ->
  list_sum (h_buckets (child_observe amount h)) = S (list_sum (h_buckets h)).
Proof.
  intros Hlen. unfold child_observe. cbn [h_buckets].
  apply bucket_observe_total; [exact Hlen | exact default_buckets_end].
Qed.

Lemma new_child_total : list_sum (h_buckets new_child) = O.
Proof. reflexivity. Qed.

Lemma count_at_observe l amount hs k :
  hists_wf hs ->
  count_at k (dict_update labels2_eqb l (child_observe amount) new_child hs)
  = (count_at k hs + if labels2_eqb l k then 1 else 0)%nat.
Proof.
  intros Hwf. unfold count_at.
  destruct (labels2_eqb_spec l k) as [<-|Hne].
  - rewrite (dict_get_update_same labels2_eqb labels2_eqb_spec).
    destruct (dict_get labels2_eqb l hs) as [h|] eqn:Hget.
    + rewrite child_observe_total; [lia|].
      exact (hists_wf_get _ _ _ Hwf Hget).
    + rewrite child_observe_total; [|exact new_child_length].
      rewrite new_child_total. reflexivity.
  - rewrite (dict_get_update_other labels2_eqb labels2_eqb_spec);
      [lia | congruence].
Qed.

Lemma sum_at_observe l amount hs k :
  sum_at k (dict_update labels2_eqb l (child_observe amount) new_child hs)
  = if labels2_eqb l k then sum_at k hs + amount else sum_at k hs.
Proof.
  unfold sum_at.
  destruct (labels2_eqb_spec l k) as [<-|Hne].
  - rewrite (dict_get_update_same labels2_eqb labels2_eqb_spec).
    destruct (dict_get labels2_eqb l hs); reflexivity.
  - rewrite (dict_get_update_other labels2_eqb labels2_eqb_spec);
      [reflexivity | congruence].
Qed.

(** ** The registry across requests *)

Lemma serve_counted w ep request :
  instrumented ep = true -> interrupt (naps w) = None ->
  returned (fst (dispatch ep request w)) = true
  /\ REQUESTS (serve w (ep, request))
     = dict_update labels3_eqb (route_path ep, "GET", "200") S O (REQUESTS w)
  /\ REQ_LATENCY (serve w (ep, request))
     = dict_update labels2_eqb (route_path ep, "GET")
         (child_observe (latency w)) new_child (REQ_LATENCY w).
Proof.
  intros Hi Hs. unfold serve. cbn [fst snd].
  destruct ep; try discriminate; cbn [dispatch route_path].
  - rewrite (index_returns request w Hs). repeat split.
  - rewrite (hello_returns request name w Hs). repeat split.
Qed.

Lemma serve_uncounted w ep request :
  instrumented ep = false \/ interrupt (naps w) <> None ->
  REQUESTS (serve w (ep, request)) = REQUESTS w
  /\ REQ_LATENCY (serve w (ep, request)) = REQ_LATENCY w
  /\ log_sink (serve w (ep, request)) = log_sink w.
Proof.
  intros H. unfold serve. cbn [fst snd].
  destruct ep; cbn [dispatch]; try (repeat split; fail).
  - destruct H as [H|H]; [discriminate|].
    destruct (interrupt (naps w)) as [e|] eqn:Hs; [|congruence].
    rewrite (index_raises request w e Hs). repeat split.
  - destruct H as [H|H]; [discriminate|].
    destruct (interrupt (naps w)) as [e|] eqn:Hs; [|congruence].
    rewrite (hello_raises request name w e Hs). repeat split.
Qed.

Lemma serve_cases w ep :
  (instrumented ep = true /\ interrupt (naps w) = None)
  \/ (instrumented ep = false \/ interrupt (naps w) <> None).
Proof.
  destruct (instrumented ep); [|now right; left].
  destruct (interrupt (naps w)); [right; right; discriminate | now left].
Qed.

Lemma counter_total_counted w w' l path method :
  REQUESTS w' = dict_update labels3_eqb l S O (REQUESTS w) ->
  counter_total path method w'
  = (counter_total path method w
     + if labels2_eqb (path_method l) (path, method) then 1 else 0)%nat.
Proof.
  intros E. unfold counter_total. rewrite E. apply counter_total_update.
Qed.

Lemma hist_count_counted w w' l amount path method :
  hists_wf (REQ_LATENCY w) ->
  REQ_LATENCY w' = dict_update labels2_eqb l (child_observe amount) new_child
                     (REQ_LATENCY w) ->
  hist_count path method w'
  = (hist_count path method w
     + if labels2_eqb l (path, method) then 1 else 0)%nat.
Proof.
  intros Hwf E. unfold hist_count. rewrite E.
  exact (count_at_observe l amount (REQ_LATENCY w) (path, method) Hwf).
Qed.

Lemma hist_sum_counted w w' l amount path method :
  REQ_LATENCY w' = dict_update labels2_eqb l (child_observe amount) new_child
                     (REQ_LATENCY w) ->
  hist_sum path method w'
  = if labels2_eqb l (path, method) then hist_sum path method w + amount
    else hist_sum path method w.
Proof.
  intros E. unfold hist_sum. rewrite E.
  exact (sum_at_observe l amount (REQ_LATENCY w) (path, method)).
Qed.

Lemma returned_not_interrupted w ep request :
  instrumented ep = true ->
  returned (fst (dispatch ep request w)) = true ->
  interrupt (naps w) = None.
Proof.
  intros Hi Hret. destruct (interrupt (naps w)) as [e|] eqn:Hs; [|reflexivity].
  destruct ep; try discriminate; cbn [dispatch] in Hret.
  - rewrite (index_raises request w e Hs) in Hret. discriminate.
  - rewrite (hello_raises request name w e Hs) in Hret. discriminate.
Qed.

Lemma serve_counted_events w ep request :
  instrumented ep = true -> interrupt (naps w) = None ->
  count_events is_counter_inc (new_events w (serve w (ep, request))) = 1%nat
  /\ count_events is_observe (new_events w (serve w (ep, request))) = 1%nat
  /\ In (EvCounterInc (route_path ep, "GET", "200"))
        (new_events w (serve w (ep, request)))
  /\ In (EvObserve (route_path ep, "GET") (latency w))
        (new_events w (serve w (ep, request))).
Proof.
  intros Hi Hs. unfold serve, new_events. cbn [fst snd].
  destruct ep; try discriminate; cbn [dispatch route_path].
  - rewrite (index_returns request w Hs). cbn [snd trace].
    rewrite skipn_new. repeat split; simpl; auto 10.
  - rewrite (hello_returns request name w Hs). cbn [snd trace].
    rewrite skipn_new. repeat split; simpl; auto 10.
Qed.

(** A label combination, once used, stays, and its counter never goes
    down. *)
Lemma counter_persists w r l n :
  dict_get labels3_eqb l (REQUESTS w) = Some n ->
  exists n', (n <= n')%nat
             /\ dict_get labels3_eqb l (REQUESTS (serve w r)) = Some n'.
Proof.
  intros Hget. destruct r as [ep request].
  destruct (serve_cases w ep) as [[Hi Hs]|Hno].
  - destruct (serve_counted w ep request Hi Hs) as (_ & Hc & _). rewrite Hc.
    destruct (labels3_eqb_spec (route_path ep, "GET", "200") l) as [<-|Hne].
    + rewrite (dict_get_update_same labels3_eqb labels3_eqb_spec), Hget.
      exists (S n). split; [lia | reflexivity].
    + rewrite (dict_get_update_other labels3_eqb labels3_eqb_spec);
        [|congruence].
      exists n. split; [lia | exact Hget].
  - destruct (serve_uncounted w ep request Hno) as (Hc & _). rewrite Hc.
    exists n. split; [lia | exact Hget].
Qed.

Lemma counter_persists_all rs w l n :
  dict_get labels3_eqb l (REQUESTS w) = Some n ->
  exists n', (n <= n')%nat
             /\ dict_get labels3_eqb l (REQUESTS (serve_all rs w)) = Some n'.
Proof.
  revert w n. induction rs as [|r rs IH]; intros w n Hget.
  - exists n. split; [lia | exact Hget].
  - destruct (counter_persists w r l n Hget) as (n1 & Hle & Hget1).
    destruct (IH (serve w r) n1 Hget1) as (n2 & Hle2 & Hget2).
    exists n2. split; [lia | exact Hget2].
Qed.

Lemma registry_inv_init : registry_inv init_world.
Proof. split; [constructor | reflexivity]. Qed.

Lemma registry_inv_serve w r : registry_inv w -> registry_inv (serve w r).
Proof.
  intros [Hwf Heq]. destruct r as [ep request].
  destruct (serve_cases w ep) as [[Hi Hs]|Hno].
  - destruct (serve_counted w ep request Hi Hs) as (_ & Hc & Hh). split.
    + rewrite Hh. now apply hists_wf_observe.
    + intros path method.
      rewrite (hist_count_counted _ _ _ _ path method Hwf Hh).
      rewrite (counter_total_counted _ _ _ path method Hc).
      rewrite Heq. reflexivity.
  - destruct (serve_uncounted w ep request Hno) as (Hc & Hh & _). split.
    + now rewrite Hh.
    + intros path method. unfold hist_count, counter_total.
      rewrite Hc, Hh. apply Heq.
Qed.

Lemma registry_inv_serve_all rs w :
  registry_inv w -> registry_inv (serve_all rs w).
Proof.
  revert w. induction rs as [|r rs IH]; intros w Hw; simpl; [exact Hw|].
  apply IH. now apply registry_inv_serve.
Qed.

Lemma latency_nonneg w : clock_monotone -> 0 <= latency w.
Proof.
  intros Hm. unfold latency.
  apply (proj1 (Qle_minus_iff (clock (ticks w)) (clock (S (ticks w))))).
  apply Hm.
Qed.

Lemma hist_sum_serve w r path method :
  clock_monotone ->
  hist_sum path method w <= hist_sum path method (serve w r).
Proof.
  intros Hm. destruct r as [ep request].
  destruct (serve_cases w ep) as [[Hi Hs]|Hno].
  - destruct (serve_counted w ep request Hi Hs) as (_ & _ & Hh).
    rewrite (hist_sum_counted _ _ _ _ path method Hh).
    destruct (labels2_eqb (route_path ep, "GET") (path, method)).
    + rewrite <- (Qplus_0_r (hist_sum path method w)) at 1.
      apply Qplus_le_r. now apply latency_nonneg.
    + apply Qle_refl.
  - destruct (serve_uncounted w ep request Hno) as (_ & Hh & _).
    unfold hist_sum. rewrite Hh. apply Qle_refl.
Qed.

Lemma sums_nonneg_serve_all rs w :
  clock_monotone -> sums_nonneg w -> sums_nonneg (serve_all rs w).
Proof.
  intros Hm. revert w. induction rs as [|r rs IH]; intros w Hw; simpl;
    [exact Hw|].
  apply IH. intros path method.
  eapply Qle_trans; [apply Hw | now apply hist_sum_serve].
Qed.

(** ** The log line *)

Lemma logfmt_parts fields acc :
  fold_left logfmt_part fields acc = (acc ++ map field_text fields)%list.
Proof.
  revert acc. induction fields as [|[k v] fields IH]; intros acc; simpl.
  - now rewrite app_nil_r.
  - rewrite IH. unfold field_text at 2. cbn [fst snd].
    now rewrite <- app_assoc.
Qed.

Lemma logfmt_join fields :
  logfmt fields = Str.join " " (map field_text fields).
Proof. unfold logfmt. now rewrite logfmt_parts. Qed.

Lemma join_snoc sep (parts : list string) last :
  parts <> [] ->
  Str.join sep (parts ++ [last]) = Str.join sep parts ++ sep ++ last.
Proof.
  unfold Str.join. induction parts as [|p parts IH]; [congruence|].
  intros _. destruct parts as [|q parts].
  - reflexivity.
  - change (String.concat sep ((p :: q :: parts) ++ [last]))
      with (p ++ sep ++ String.concat sep ((q :: parts) ++ [last])).
    rewrite IH by discriminate.
    change (String.concat sep (p :: q :: parts))
      with (p ++ sep ++ String.concat sep (q :: parts)).
    now rewrite !append_assoc.
Qed.

Lemma contains_format_record sub asctime r :
  Str.contains sub (message r) -> Str.contains sub (format_record asctime r).
Proof.
  intros H. unfold format_record.
  do 8 apply contains_append_l. now apply contains_append_r.
Qed.

(** ** The properties of the pipeline *)

(** C4, as amended. [logfmt] writes the fields in the caller's order as
    key=value joined by single spaces; in a value it replaces every space
    character by an underscore and changes no other character: a tab, a
    newline or an equals sign stays as it is, and the length of the value
    is kept. *)
Theorem logfmt_replaces_spaces_only (fields : list (string * PyValue)) :
  logfmt fields = Str.join " " (map field_text fields)
  /\ forall k v,
       let s := Str.replace Str.space Str.underscore (py_str v) in
       field_text (k, v) = k ++ "=" ++ s
       /\ String.length s = String.length (py_str v)
       /\ Str.mem Str.space s = false
       /\ forall i,
            String.get i s
            = option_map
                (fun c => if Ascii.eqb c Str.space then Str.underscore else c)
                (String.get i (py_str v)).
Proof.
  split; [apply logfmt_join|].
  intros k v s. subst s. repeat split.
  - apply length_replace.
  - apply mem_replace. discriminate.
  - intros i. apply get_replace.
Qed.

(** C1, as amended. When the body of an instrumented handler raises, the
    span is ended as failed and the exception leaves the handler: the
    handler returns no response, and no counter increment, no histogram
    observation and no log line is recorded. *)
Theorem handler_failure_propagates (request : Request) (w : World) (e : Exn) :
  interrupt (naps w) = Some e ->
  propagates (index request) e w
  /\ forall name, propagates (hello request name) e w.
Proof.
  intros H. split; [|intros name].
  - unfold propagates. rewrite (index_raises request w e H).
    eexists _, _. repeat split.
  - unfold propagates. rewrite (hello_raises request name w e H).
    eexists _, _. repeat split.
Qed.

(** C5, as amended. An invocation whose body returns goes through every
    step once and in order: the span is opened, the body runs, the span is
    closed, then the counter is incremented and the latency observed, then
    the line is logged, then the handler returns. An invocation whose body
    raises stops after the span is closed. *)
Theorem pipeline_steps_in_order (request : Request) (w : World) :
  runs_pipeline (index request) "index-handler" "/" [EvSleep (5 # 100)] w
  /\ forall name,
       runs_pipeline (hello request name) "hello-handler" "/hello"
         [EvSetAttribute "app.user_name" name; EvSleep (3 # 100)] w.
Proof.
  unfold runs_pipeline, phases_of_run.
  destruct (interrupt (naps w)) as [e|] eqn:H; split; try intros name.
  - rewrite (index_raises request w e H). eexists. split; [reflexivity|].
    unfold new_events. cbn [trace]. rewrite skipn_new. split; reflexivity.
  - rewrite (hello_raises request name w e H). eexists. split; [reflexivity|].
    unfold new_events. cbn [trace]. rewrite skipn_new. split; reflexivity.
  - rewrite (index_returns request w H). eexists _, _, _, _.
    split; [reflexivity|].
    unfold new_events. cbn [trace]. rewrite skipn_new. split; reflexivity.
  - rewrite (hello_returns request name w H). eexists _, _, _, _.
    split; [reflexivity|].
    unfold new_events. cbn [trace]. rewrite skipn_new. split; reflexivity.
Qed.

Lemma hello_message request name start t2 :
  logfmt (hello_fields request name start t2)
  = "event=request path=/hello method=GET status=200 name="
    ++ Str.replace Str.space Str.underscore name
    ++ " duration_ms="
    ++ Str.replace Str.space Str.underscore
         (float_str (round1 ((t2 - start) * 1000)))
    ++ " client_ip="
    ++ Str.replace Str.space Str.underscore
         (py_str (py_opt_str (remote_addr request))).
Proof.
  rewrite logfmt_join. unfold hello_fields, Str.join, field_text.
  cbn [map String.concat fst snd py_str]. rewrite str_int_200.
  cbn [Str.replace]. simpl. rewrite ?append_assoc. reflexivity.
Qed.

(** C2. A request GET /hello/world whose body is not cut short is answered
    with the body Hello world! and a newline and status 200; the counter
    for path /hello, method GET, status 200 goes up by exactly 1 and no
    other counter changes; exactly one record is logged, and the line
    written for it contains the request fields in order. *)
Theorem hello_world_scenario (request : Request) (w : World) :
  interrupt (naps w) = None ->
  exists w' rec,
    hello request "world" w
    = (Return (mkResponse ("Hello world!" ++ Str.nl) 200 []), w')
    /\ counter_value ("/hello", "GET", "200") w'
       = S (counter_value ("/hello", "GET", "200") w)
    /\ (forall l, l <> ("/hello", "GET", "200") ->
          counter_value l w' = counter_value l w)
    /\ log_sink w' = (log_sink w ++ [rec])%list
    /\ forall asctime,
         Str.contains
           "event=request path=/hello method=GET status=200 name=world"
           (format_record asctime rec).
Proof.
  intros H. rewrite (hello_returns request "world" w H).
  eexists _, _. split; [reflexivity|]. cbn [REQUESTS log_sink].
  unfold counter_value. cbn [REQUESTS]. repeat split.
  - rewrite (dict_get_update_same labels3_eqb labels3_eqb_spec).
    reflexivity.
  - intros l Hl.
    now rewrite (dict_get_update_other labels3_eqb labels3_eqb_spec).
  - intros asctime. apply contains_format_record. cbn [message].
    rewrite hello_message.
    exists EmptyString. eexists. cbn [Str.replace]. simpl. reflexivity.
Qed.

(** C3. After any sequence of requests served from the start of the
    process, the count of the latency histogram for a (path, method)
    equals the request counter for it summed over all statuses; a
    completed instrumented request performs exactly one counter increment
    and exactly one observation, both for its own (path, method), which
    adds one to each of the two and leaves every other (path, method) as
    it was; and while the clock is not set back the sum of the histogram
    is non-negative and no request makes it smaller. *)
Theorem histogram_count_matches_counter (rs : list (Endpoint * Request)) :
  let w := serve_all rs init_world in
  (forall path method, hist_count path method w = counter_total path method w)
  /\ (forall ep request,
        instrumented ep = true ->
        returned (fst (dispatch ep request w)) = true ->
        let w' := serve w (ep, request) in
        count_events is_counter_inc (new_events w w') = 1%nat
        /\ count_events is_observe (new_events w w') = 1%nat
        /\ In (EvCounterInc (route_path ep, "GET", "200")) (new_events w w')
        /\ In (EvObserve (route_path ep, "GET") (latency w)) (new_events w w')
        /\ counter_total (route_path ep) "GET" w'
           = S (counter_total (route_path ep) "GET" w)
        /\ hist_count (route_path ep) "GET" w'
           = S (hist_count (route_path ep) "GET" w)
        /\ forall path method,
             (path, method) <> (route_path ep, "GET") ->
             counter_total path method w' = counter_total path method w
             /\ hist_count path method w' = hist_count path method w)
  /\ (clock_monotone ->
      forall path method,
        0 <= hist_sum path method w
        /\ forall r, hist_sum path method w <= hist_sum path method (serve w r)).
Proof.
  intros w.
  destruct (registry_inv_serve_all rs init_world registry_inv_init)
    as [Hwf Heq].
  fold w in Hwf, Heq. split; [exact Heq|]. split.
  - intros ep request Hi Hret w'.
    pose proof (returned_not_interrupted w ep request Hi Hret) as Hs.
    destruct (serve_counted w ep request Hi Hs) as (_ & Hc & Hh).
    destruct (serve_counted_events w ep request Hi Hs)
      as (Hn1 & Hn2 & Hin1 & Hin2).
    fold w' in Hc, Hh, Hn1, Hn2, Hin1, Hin2.
    assert (Hsame : labels2_eqb (route_path ep, "GET") (route_path ep, "GET")
                    = true).
    { destruct (labels2_eqb_spec (route_path ep, "GET") (route_path ep, "GET"));
        congruence. }
    split; [exact Hn1|]. split; [exact Hn2|].
    split; [exact Hin1|]. split; [exact Hin2|].
    repeat split.
    + rewrite (counter_total_counted _ _ _ _ _ Hc).
      cbn [path_method]. rewrite Hsame. lia.
    + rewrite (hist_count_counted _ _ _ _ _ _ Hwf Hh). rewrite Hsame. lia.
    + rewrite (counter_total_counted _ _ _ _ _ Hc). cbn [path_method].
      destruct (labels2_eqb_spec (route_path ep, "GET") (path, method));
        [congruence | lia].
    + rewrite (hist_count_counted _ _ _ _ _ _ Hwf Hh).
      destruct (labels2_eqb_spec (route_path ep, "GET") (path, method));
        [congruence | lia].
  - intros Hm path method. split.
    + apply (sums_nonneg_serve_all rs init_world Hm).
      intros p m. apply Qle_refl.
    + intros r. now apply hist_sum_serve.
Qed.

Lemma serve_uninstrumented w r :
  instrumented (fst r) = false -> serve w r = w.
Proof.
  destruct r as [[| | |] request]; cbn [fst]; try discriminate; reflexivity.
Qed.

Lemma serve_all_uninstrumented rs w :
  forallb (fun r => negb (instrumented (fst r))) rs = true ->
  serve_all rs w = w.
Proof.
  revert w. induction rs as [|r rs IH]; intros w H; [reflexivity|].
  simpl in H. apply andb_prop in H. destruct H as [Hr Hrs].
  cbn [serve_all fold_left]. rewrite serve_uninstrumented.
  - now apply IH.
  - now destruct (instrumented (fst r)).
Qed.

(** C7. GET /healthz answers ok and a newline with status 200 and leaves
    the whole state as it was: every counter, every histogram and the log;
    so does any number of such requests in a row. *)
Theorem healthz_leaves_state (w : World) (request : Request) :
  dispatch GetHealthz request w
  = (Return (mkResponse ("ok" ++ Str.nl) 200 []), w)
  /\ forall n, serve_all (repeat (GetHealthz, request) n) w = w.
Proof.
  split; [reflexivity|].
  intros n. apply serve_all_uninstrumented.
  induction n as [|n IH]; [reflexivity | exact IH].
Qed.

Lemma counter_sample_exported w l n :
  dict_get labels3_eqb l (REQUESTS w) = Some n ->
  Str.contains (counter_sample (l, n)) (generate_latest w).
Proof.
  intros Hget. unfold generate_latest.
  do 4 apply contains_append_l. apply contains_append_r.
  apply contains_concat with (s := counter_sample (l, n)).
  - apply in_map. exact (dict_get_In labels3_eqb labels3_eqb_spec _ _ _ Hget).
  - exists EmptyString, EmptyString. simpl. now rewrite append_nil_r.
Qed.

Lemma counter_sample_text path method status n :
  counter_sample ((path, method, status), n)
  = "app_requests_total{method=" ++ Str.dquote ++ method ++ Str.dquote
    ++ ",path=" ++ Str.dquote ++ path ++ Str.dquote
    ++ ",status=" ++ Str.dquote ++ status ++ Str.dquote ++ "} "
    ++ float_str (inject_Z (Z.of_nat n)) ++ Str.nl.
Proof.
  unfold counter_sample, label_pair. simpl.
  rewrite !append_assoc. reflexivity.
Qed.

(** C8. GET /metrics answers with status 200 and the exposition content
    type, and for every label combination of the request counter used so
    far its body holds the sample line of that combination: the name of
    the metric, the method, path and status of the combination, and its
    current value. A label combination that an earlier completed request
    has incremented is among them, with a value of at least the one that
    request left. *)
Theorem metrics_reports_counters (w : World) :
  exists body,
    metrics w
    = (Return (mkResponse body 200 [("Content-Type", CONTENT_TYPE_LATEST)]), w)
    /\ (forall path method status n,
          dict_get labels3_eqb (path, method, status) (REQUESTS w) = Some n ->
          Str.contains
            ("app_requests_total{method=" ++ Str.dquote ++ method ++ Str.dquote
             ++ ",path=" ++ Str.dquote ++ path ++ Str.dquote
             ++ ",status=" ++ Str.dquote ++ status ++ Str.dquote ++ "} "
             ++ float_str (inject_Z (Z.of_nat n)) ++ Str.nl)
            body)
    /\ (forall ep request w0 rs,
          w = serve_all rs (serve w0 (ep, request)) ->
          instrumented ep = true ->
          returned (fst (dispatch ep request w0)) = true ->
          exists n,
            (S (counter_value (route_path ep, "GET", "200") w0) <= n)%nat
            /\ counter_value (route_path ep, "GET", "200") w = n
            /\ Str.contains
                 ("app_requests_total{method=" ++ Str.dquote ++ "GET"
                  ++ Str.dquote ++ ",path=" ++ Str.dquote ++ route_path ep
                  ++ Str.dquote ++ ",status=" ++ Str.dquote ++ "200"
                  ++ Str.dquote ++ "} "
                  ++ float_str (inject_Z (Z.of_nat n)) ++ Str.nl)
                 body).
Proof.
  exists (generate_latest w). split; [reflexivity|]. split.
  - intros path method status n Hget.
    rewrite <- counter_sample_text. now apply counter_sample_exported.
  - intros ep request w0 rs -> Hi Hret.
    pose proof (returned_not_interrupted w0 ep request Hi Hret) as Hs.
    destruct (serve_counted w0 ep request Hi Hs) as (_ & Hc & _).
    assert (Hget : dict_get labels3_eqb (route_path ep, "GET", "200")
                     (REQUESTS (serve w0 (ep, request)))
                   = Some (S (counter_value (route_path ep, "GET", "200") w0))).
    { rewrite Hc, (dict_get_update_same labels3_eqb labels3_eqb_spec).
      reflexivity. }
    destruct (counter_persists_all rs _ _ _ Hget) as (n & Hle & Hn).
    exists n. split; [exact Hle|]. split.
    + unfold counter_value. now rewrite Hn.
    + rewrite <- (counter_sample_text (route_path ep) "GET" "200" n).
      now apply counter_sample_exported.
Qed.

Lemma headers_get_absent key default hs :
  (forall k v, In (k, v) hs -> Str.lower k <> Str.lower key) ->
  headers_get key default hs = default.
Proof.
  induction hs as [|[k v] hs IH]; intros H; [reflexivity|]. simpl.
  destruct (String.eqb_spec (Str.lower k) (Str.lower key)) as [E|_].
  - exfalso. exact (H k v (or_introl eq_refl) E).
  - apply IH. intros k' v' Hin. apply (H k' v'). now right.
Qed.

Lemma index_message request start t2 :
  exists prefix,
    logfmt (index_fields request start t2)
    = prefix ++ " user_agent="
      ++ Str.replace Str.space Str.underscore
           (Str.slice_to 100
              (headers_get "User-Agent" EmptyString (headers request))).
Proof.
  rewrite logfmt_join. unfold index_fields.
  match goal with
  | |- context [map field_text [?a; ?b; ?c; ?d; ?e; ?f; ?g]] =>
      change (map field_text [a; b; c; d; e; f; g])
        with (map field_text [a; b; c; d; e; f] ++ [field_text g])%list
  end.
  rewrite join_snoc by discriminate.
  eexists. reflexivity.
Qed.

(** C9. The record an uninterrupted GET / logs ends in the field
    user_agent, whose value is the first 100 characters of the User-Agent
    header of the request, the whole header when it is not longer, the
    empty string when there is no such header, with every space replaced
    by an underscore. *)
Theorem index_logs_user_agent (request : Request) (w : World) :
  interrupt (naps w) = None ->
  let ua := headers_get "User-Agent" EmptyString (headers request) in
  let value := Str.replace Str.space Str.underscore (Str.slice_to 100 ua) in
  exists resp w' rec prefix,
    index request w = (Return resp, w')
    /\ log_sink w' = (log_sink w ++ [rec])%list
    /\ message rec = prefix ++ " user_agent=" ++ value
    /\ String.length value = Nat.min 100 (String.length ua)
    /\ Str.mem Str.space value = false
    /\ (exists rest, ua = Str.slice_to 100 ua ++ rest)
    /\ ((String.length ua <= 100)%nat ->
        value = Str.replace Str.space Str.underscore ua)
    /\ ((forall k v, In (k, v) (headers request) ->
           Str.lower k <> Str.lower "User-Agent") ->
        value = EmptyString).
Proof.
  intros H ua value. rewrite (index_returns request w H).
  destruct (index_message request (clock (ticks w)) (clock (S (S (ticks w)))))
    as [prefix Hp].
  eexists _, _, _, prefix. split; [reflexivity|]. cbn [log_sink].
  split; [reflexivity|]. cbn [message]. split; [exact Hp|].
  subst value. repeat split.
  - now rewrite length_replace, length_slice_to.
  - apply mem_replace. discriminate.
  - apply slice_to_prefix.
  - intros Hlen. now rewrite slice_to_all.
  - intros Habs. subst ua. now rewrite (headers_get_absent _ _ _ Habs).
Qed.

(** C10. GET /metrics changes nothing: no counter, no histogram, no log
    record, no event; the text it reports is the same however often it
    is served. *)
Theorem metrics_uninstrumented (w : World) (request : Request) :
  snd (dispatch GetMetrics request w) = w
  /\ new_events w (snd (dispatch GetMetrics request w)) = []
  /\ forall n,
       generate_latest (serve_all (repeat (GetMetrics, request) n) w)
       = generate_latest w.
Proof.
  cbn [dispatch metrics snd]. split; [reflexivity|]. split.
  - unfold new_events. rewrite <- (app_nil_r (trace w)) at 2.
    apply skipn_new.
  - intros n. rewrite serve_all_uninstrumented; [reflexivity|].
    induction n as [|n IH]; [reflexivity | exact IH].
Qed.

(** ** Reading the log line back *)

Lemma mem_append c a b : Str.mem c (a ++ b) = Str.mem c a || Str.mem c b.
Proof.
  induction a as [|x a IH]; simpl; [reflexivity|].
  now rewrite IH, orb_assoc.
Qed.

Lemma split_on_plain sep a :
  Str.mem sep a = false -> Str.split_on sep a = [a].
Proof.
  induction a as [|c a IH]; simpl; [reflexivity|].
  intros H. apply orb_false_elim in H. destruct H as [Hc Ha].
  now rewrite Hc, (IH Ha).
Qed.

Lemma split_on_append sep a b :
  Str.mem sep a = false ->
  Str.split_on sep (a ++ String sep b) = a :: Str.split_on sep b.
Proof.
  induction a as [|c a IH]; simpl.
  - intros _. now rewrite Ascii.eqb_refl.
  - intros H. apply orb_false_elim in H. destruct H as [Hc Ha].
    now rewrite Hc, (IH Ha).
Qed.

(** Splitting undoes joining, when no part holds the separator. *)
Lemma split_on_join sep (parts : list string) :
  parts <> [] ->
  Forall (fun part => Str.mem sep part = false) parts ->
  Str.split_on sep (Str.join (String sep EmptyString) parts) = parts.
Proof.
  unfold Str.join. induction parts as [|p parts IH]; [congruence|].
  intros _ Hall. inversion Hall as [|p' parts' Hp Hparts]; subst.
  destruct parts as [|q parts].
  - simpl. now apply split_on_plain.
  - change (String.concat (String sep EmptyString) (p :: q :: parts))
      with (p ++ String sep
                   (String.concat (String sep EmptyString) (q :: parts))).
    rewrite (split_on_append sep p _ Hp).
    rewrite IH; [reflexivity | discriminate | exact Hparts].
Qed.

Lemma split_once_append sep k v :
  Str.mem sep k = false ->
  Str.split_once sep (k ++ String sep v) = Some (k, v).
Proof.
  induction k as [|c k IH]; simpl.
  - intros _. now rewrite Ascii.eqb_refl.
  - intros H. apply orb_false_elim in H. destruct H as [Hc Hk].
    now rewrite Hc, (IH Hk).
Qed.

Lemma field_text_plain kv :
  plain_key (fst kv) = true ->
  Str.mem Str.space (field_text kv) = false
  /\ Str.split_once Str.equals (field_text kv) = read_field kv.
Proof.
  unfold plain_key, field_text, read_field. intros H.
  apply andb_prop in H. destruct H as [Hs He].
  apply negb_true_iff in Hs. apply negb_true_iff in He. split.
  - rewrite mem_append, Hs. simpl.
    apply mem_replace. discriminate.
  - exact (split_once_append Str.equals (fst kv) _ He).
Qed.

Lemma logfmt_parse fields :
  fields <> [] ->
  forallb (fun kv => plain_key (fst kv)) fields = true ->
  Str.split_on Str.space (logfmt fields) = map field_text fields
  /\ parse_logfmt (logfmt fields) = map read_field fields.
Proof.
  intros Hne Hkeys. rewrite forallb_forall in Hkeys.
  assert (Hsplit : Str.split_on Str.space (logfmt fields)
                   = map field_text fields).
  { rewrite logfmt_join.
    apply (split_on_join Str.space (map field_text fields)).
    - destruct fields; [congruence | discriminate].
    - apply Forall_forall. intros part Hin.
      apply in_map_iff in Hin. destruct Hin as (kv & <- & Hin).
      exact (proj1 (field_text_plain kv (Hkeys kv Hin))). }
  split; [exact Hsplit|].
  unfold parse_logfmt. rewrite Hsplit, map_map.
  apply map_ext_in. intros kv Hin.
  exact (proj2 (field_text_plain kv (Hkeys kv Hin))).
Qed.

(** X1. A line of [logfmt] reads back: when there is at least one field
    and no key holds a space or an equals sign, cutting the line at its
    spaces gives one part per field, in order, and cutting each part at
    its first equals sign gives the key and the value with its spaces
    made underscores, also when the value holds equals signs. *)
Theorem logfmt_reads_back (fields : list (string * PyValue)) :
  fields <> [] ->
  forallb (fun kv => plain_key (fst kv)) fields = true ->
  length (Str.split_on Str.space (logfmt fields)) = length fields
  /\ parse_logfmt (logfmt fields) = map read_field fields.
Proof.
  intros Hne Hkeys.
  destruct (logfmt_parse fields Hne Hkeys) as [Hsplit Hparse].
  split; [|exact Hparse].
  rewrite Hsplit. apply length_map.
Qed.

(** X2. Read as in X1, cut at its space characters and then at the first
    equals sign of each part, the message of the record of a completed
    GET /hello/name has exactly the seven fields of [hello] and that of a
    completed GET / the seven of [index], for every name and every
    request: a space in the name or in a header never starts a new part,
    since it is written as an underscore. Nothing is said of a reader
    that also cuts at tabs or line breaks, which stay in the value, nor
    of the quoting of the written line. *)
Theorem request_message_reads_back (request : Request) (w : World) :
  interrupt (naps w) = None ->
  (forall name,
     exists rec,
       log_sink (snd (hello request name w)) = (log_sink w ++ [rec])%list
       /\ parse_logfmt (message rec)
          = [Some ("event", "request"); Some ("path", "/hello");
             Some ("method", "GET"); Some ("status", "200");
             Some ("name", Str.replace Str.space Str.underscore name);
             Some ("duration_ms",
                   Str.replace Str.space Str.underscore
                     (float_str
                        (round1 ((clock (S (S (ticks w))) - clock (ticks w))
                                 * 1000))));
             Some ("client_ip",
                   Str.replace Str.space Str.underscore
                     (py_str (py_opt_str (remote_addr request))))])
  /\ exists rec,
       log_sink (snd (index request w)) = (log_sink w ++ [rec])%list
       /\ parse_logfmt (message rec)
          = [Some ("event", "request"); Some ("path", "/");
             Some ("method", "GET"); Some ("status", "200");
             Some ("duration_ms",
                   Str.replace Str.space Str.underscore
                     (float_str
                        (round1 ((clock (S (S (ticks w))) - clock (ticks w))
                                 * 1000))));
             Some ("client_ip",
                   Str.replace Str.space Str.underscore
                     (py_str (py_opt_str (remote_addr request))));
             Some ("user_agent",
                   Str.replace Str.space Str.underscore
                     (Str.slice_to 100
                        (headers_get "User-Agent" EmptyString
                           (headers request))))].
Proof.
  intros H. split; [intros name|].
  - rewrite (hello_returns request name w H). eexists.
    split; [reflexivity|]. cbn [message].
    rewrite (proj2 (logfmt_parse (hello_fields request name _ _)
                      ltac:(discriminate) eq_refl)).
    reflexivity.
  - rewrite (index_returns request w H). eexists.
    split; [reflexivity|]. cbn [message].
    rewrite (proj2 (logfmt_parse (index_fields request _ _)
                      ltac:(discriminate) eq_refl)).
    reflexivity.
Qed.

Lemma get_some_lt s i c : String.get i s = Some c -> (i < String.length s)%nat.
Proof.
  revert i. induction s as [|x s IH]; intros [|i]; simpl; try discriminate.
  - intros _. lia.
  - intros H. apply IH in H. lia.
Qed.

(** X3. The name is written into the record of a completed
    GET /hello/name in place and character by character: the message is
    the fixed text up to name=, then the name with each space made an
    underscore and every other character as it is, then the rest; so the
    i-th character of the name stands at position 53 + i of the message,
    and a tab or a line break in the name is a tab or a line break at
    that place of the message. *)
Theorem hello_writes_name_in_place
  (request : Request) (name : string) (w : World) :
  interrupt (naps w) = None ->
  exists rec rest,
    log_sink (snd (hello request name w)) = (log_sink w ++ [rec])%list
    /\ message rec
       = before_name ++ Str.replace Str.space Str.underscore name ++ rest
    /\ String.length before_name = 53%nat
    /\ forall i c,
         String.get i name = Some c ->
         String.get (53 + i) (message rec)
         = Some (if Ascii.eqb c Str.space then Str.underscore else c).
Proof.
  intros H. rewrite (hello_returns request name w H). eexists _, _.
  split; [reflexivity|]. cbn [message]. rewrite hello_message.
  split; [reflexivity|]. split; [reflexivity|].
  intros i c Hget.
  change 53%nat with (String.length before_name).
  rewrite Nat.add_comm.
  match goal with
  | |- String.get _ (?pre ++ ?tail) = _ =>
      change (String.get (i + String.length before_name) (before_name ++ tail)
              = Some (if Ascii.eqb c Str.space then Str.underscore else c))
  end.
  rewrite <- append_correct2.
  rewrite <- append_correct1.
  - rewrite get_replace, Hget. reflexivity.
  - rewrite length_replace. exact (get_some_lt name i c Hget).
Qed.

(** ** Label combinations *)

Section DictKeys.

Context {K V : Type} (eqb : K -> K -> bool).
Hypothesis eqb_spec : forall a b, reflect (a = b) (eqb a b).

(** An update keeps the keys and their order, or adds its key at the end. *)
Lemma dict_update_keys k f (init : V) d :
  map fst (dict_update eqb k f init d) = map fst d
  \/ (~ In k (map fst d)
      /\ map fst (dict_update eqb k f init d) = (map fst d ++ [k])%list).
Proof.
  induction d as [|[k' v] d IH]; simpl.
  - right. split; [tauto | reflexivity].
  - destruct (eqb_spec k' k) as [->|Hne]; simpl.
    + now left.
    + destruct IH as [IH|[Hnot IH]]; rewrite IH.
      * now left.
      * right. split; [|reflexivity]. intros [E|Hin]; [congruence | tauto].
Qed.

Lemma dict_update_keys_Forall (P : K -> Prop) k f (init : V) d :
  P k -> Forall P (map fst d) ->
  Forall P (map fst (dict_update eqb k f init d)).
Proof.
  intros Hk Hd. destruct (dict_update_keys k f init d) as [E|[_ E]];
    rewrite E; [exact Hd|].
  apply Forall_app. split; [exact Hd | now constructor].
Qed.

Lemma dict_update_keys_NoDup k f (init : V) d :
  NoDup (map fst d) -> NoDup (map fst (dict_update eqb k f init d)).
Proof.
  intros Hd. destruct (dict_update_keys k f init d) as [E|[Hnot E]];
    rewrite E; [exact Hd|].
  apply NoDup_app; [exact Hd | constructor; [tauto | constructor] |].
  intros a Ha [<-|[]]. exact (Hnot Ha).
Qed.

Lemma dict_get_missing k (d : dict K V) :
  ~ In k (map fst d) -> dict_get eqb k d = None.
Proof.
  induction d as [|[k' v] d IH]; simpl; [reflexivity|].
  intros Hnot. destruct (eqb_spec k' k) as [E|_]; [tauto|].
  apply IH. tauto.
Qed.

End DictKeys.

Lemma labels_inv_serve w r : labels_inv w -> labels_inv (serve w r).
Proof.
  intros (Hk3 & Hn3 & Hk2 & Hn2). destruct r as [ep request].
  destruct (serve_cases w ep) as [[Hi Hs]|Hno].
  - destruct (serve_counted w ep request Hi Hs) as (_ & Hc & Hh).
    unfold labels_inv. rewrite Hc, Hh.
    assert (H3 : known_labels3 (route_path ep, "GET", "200")).
    { destruct ep; try discriminate; [now left | now right]. }
    assert (H2 : known_labels2 (route_path ep, "GET")).
    { destruct ep; try discriminate; [now left | now right]. }
    repeat split.
    + now apply (dict_update_keys_Forall labels3_eqb labels3_eqb_spec).
    + now apply (dict_update_keys_NoDup labels3_eqb labels3_eqb_spec).
    + now apply (dict_update_keys_Forall labels2_eqb labels2_eqb_spec).
    + now apply (dict_update_keys_NoDup labels2_eqb labels2_eqb_spec).
  - destruct (serve_uncounted w ep request Hno) as (Hc & Hh & _).
    unfold labels_inv. rewrite Hc, Hh. repeat split; assumption.
Qed.

Lemma labels_inv_serve_all rs w : labels_inv w -> labels_inv (serve_all rs w).
Proof.
  revert w. induction rs as [|r rs IH]; intros w Hw; [exact Hw|].
  apply (IH (serve w r)). now apply labels_inv_serve.
Qed.

(** X4. Request data never becomes a label: after any sequence of
    requests from the start of the process each metric has at most two
    label combinations, each stored once, path / or /hello with method
    GET and, for the counter, status 200; every other counter sample, any
    with status 500 among them, reads 0. *)
Theorem labels_stay_bounded (rs : list (Endpoint * Request)) :
  let w := serve_all rs init_world in
  Forall known_labels3 (map fst (REQUESTS w))
  /\ NoDup (map fst (REQUESTS w))
  /\ (length (REQUESTS w) <= 2)%nat
  /\ Forall known_labels2 (map fst (REQ_LATENCY w))
  /\ NoDup (map fst (REQ_LATENCY w))
  /\ (length (REQ_LATENCY w) <= 2)%nat
  /\ forall l, ~ known_labels3 l -> counter_value l w = O.
Proof.
  intros w.
  assert (Hinit : labels_inv init_world).
  { repeat split; constructor. }
  destruct (labels_inv_serve_all rs init_world Hinit) as (Hk3 & Hn3 & Hk2 & Hn2).
  fold w in Hk3, Hn3, Hk2, Hn2.
  split; [exact Hk3|]. split; [exact Hn3|]. split.
  { rewrite <- (length_map fst (REQUESTS w)).
    apply (NoDup_incl_length (l' := [("/", "GET", "200"); ("/hello", "GET", "200")]) Hn3).
    intros l Hl. rewrite Forall_forall in Hk3.
    destruct (Hk3 l Hl) as [->| ->]; simpl; auto. }
  split; [exact Hk2|]. split; [exact Hn2|]. split.
  { rewrite <- (length_map fst (REQ_LATENCY w)).
    apply (NoDup_incl_length (l' := [("/", "GET"); ("/hello", "GET")]) Hn2).
    intros l Hl. rewrite Forall_forall in Hk2.
    destruct (Hk2 l Hl) as [->| ->]; simpl; auto. }
  intros l Hl. unfold counter_value.
  rewrite (dict_get_missing labels3_eqb labels3_eqb_spec); [reflexivity|].
  intros Hin. rewrite Forall_forall in Hk3. exact (Hl (Hk3 l Hin)).
Qed.

(** ** Spans, records and counters *)

Lemma total_update l (d : dict Labels3 nat) :
  list_sum (map snd (dict_update labels3_eqb l S O d))
  = S (list_sum (map snd d)).
Proof.
  induction d as [|[k v] d IH]; simpl; [reflexivity|].
  destruct (labels3_eqb k l); simpl; [reflexivity | rewrite IH; lia].
Qed.

(** One instrumented request: one sleep, one span ended, and either a
    record and an increment, or a failed span. *)
Lemma serve_instrumented w ep request :
  instrumented ep = true ->
  open_spans (serve w (ep, request)) = open_spans w
  /\ naps (serve w (ep, request)) = S (naps w)
  /\ length (finished_spans (serve w (ep, request)))
     = S (length (finished_spans w))
  /\ (length (log_sink (serve w (ep, request)))
      + failed_spans (serve w (ep, request))
      = S (length (log_sink w) + failed_spans w))%nat
  /\ (length (log_sink (serve w (ep, request))) + total_requests w
      = length (log_sink w) + total_requests (serve w (ep, request)))%nat.
Proof.
  intros Hi. unfold serve, failed_spans, total_requests. cbn [fst snd].
  destruct (interrupt (naps w)) as [e|] eqn:Hs;
    destruct ep; try discriminate; cbn [dispatch].
  - rewrite (index_raises request w e Hs).
    cbn [snd open_spans naps finished_spans log_sink REQUESTS].
    rewrite filter_app, !length_app. simpl. repeat split; lia.
  - rewrite (hello_raises request name w e Hs).
    cbn [snd open_spans naps finished_spans log_sink REQUESTS].
    rewrite filter_app, !length_app. simpl. repeat split; lia.
  - rewrite (index_returns request w Hs).
    cbn [snd open_spans naps finished_spans log_sink REQUESTS].
    rewrite total_update, filter_app, !length_app. simpl.
    repeat split; lia.
  - rewrite (hello_returns request name w Hs).
    cbn [snd open_spans naps finished_spans log_sink REQUESTS].
    rewrite total_update, filter_app, !length_app. simpl.
    repeat split; lia.
Qed.

Lemma count_instrumented_cons r rs :
  count_instrumented (r :: rs)
  = ((if to_instrumented r then 1 else 0) + count_instrumented rs)%nat.
Proof.
  unfold count_instrumented. simpl. now destruct (to_instrumented r).
Qed.

Lemma index_record_is_request level request start t2 :
  is_request_record
    (mkLogRecord level (logfmt (index_fields request start t2))) = true.
Proof. unfold is_request_record. cbn [message]. rewrite logfmt_join. reflexivity. Qed.

Lemma hello_record_is_request level request name start t2 :
  is_request_record
    (mkLogRecord level (logfmt (hello_fields request name start t2))) = true.
Proof. unfold is_request_record. cbn [message]. rewrite logfmt_join. reflexivity. Qed.

(** One instrumented request, counted by what is the handlers' own: one
    handler span ended, and either one request record or one failed
    handler span. *)
Lemma serve_instrumented_own w ep request :
  instrumented ep = true ->
  handler_spans (serve w (ep, request)) = S (handler_spans w)
  /\ (request_records (serve w (ep, request))
      + failed_handler_spans (serve w (ep, request))
      = S (request_records w + failed_handler_spans w))%nat
  /\ (request_records (serve w (ep, request)) + total_requests w
      = request_records w + total_requests (serve w (ep, request)))%nat.
Proof.
  intros Hi.
  unfold serve, handler_spans, failed_handler_spans, request_records,
    total_requests.
  cbn [fst snd].
  destruct (interrupt (naps w)) as [e|] eqn:Hs;
    destruct ep; try discriminate; cbn [dispatch].
  - rewrite (index_raises request w e Hs).
    cbn [snd finished_spans log_sink REQUESTS].
    rewrite !filter_app, !length_app. simpl. repeat split; lia.
  - rewrite (hello_raises request name w e Hs).
    cbn [snd finished_spans log_sink REQUESTS].
    rewrite !filter_app, !length_app. simpl. repeat split; lia.
  - rewrite (index_returns request w Hs).
    cbn [snd finished_spans log_sink REQUESTS].
    rewrite total_update, !filter_app, !length_app.
    cbn [filter is_request_record message].
    rewrite index_record_is_request.
    simpl. repeat split; lia.
  - rewrite (hello_returns request name w Hs).
    cbn [snd finished_spans log_sink REQUESTS].
    rewrite total_update, !filter_app, !length_app.
    cbn [filter is_request_record message].
    rewrite hello_record_is_request.
    simpl. repeat split; lia.
Qed.

(** X5. Every request to an instrumented endpoint, completed or failed,
    sleeps once and ends exactly one span of its handler (index-handler
    or hello-handler), and leaves either one request record of the
    application or one failed handler span, never both and never
    neither; no handler span is left open, and the handlers of /healthz
    and /metrics open no span and write no record. Spans and records the
    framework adds on its own are not counted. *)
Theorem one_handler_span_per_request
  (rs : list (Endpoint * Request)) (w : World) :
  open_spans (serve_all rs w) = open_spans w
  /\ naps (serve_all rs w) = (naps w + count_instrumented rs)%nat
  /\ handler_spans (serve_all rs w)
     = (handler_spans w + count_instrumented rs)%nat
  /\ (request_records (serve_all rs w) + failed_handler_spans (serve_all rs w)
      = request_records w + failed_handler_spans w + count_instrumented rs)%nat.
Proof.
  revert w. induction rs as [|[ep request] rs IH]; intros w.
  - unfold count_instrumented. simpl. repeat split; lia.
  - cbn [serve_all fold_left].
    destruct (IH (serve w (ep, request))) as (Ho & Hn & Hf & Hl).
    fold (serve_all rs (serve w (ep, request))) in Ho, Hn, Hf, Hl |- *.
    rewrite count_instrumented_cons. unfold to_instrumented. cbn [fst].
    destruct (instrumented ep) eqn:Hi.
    + destruct (serve_instrumented w ep request Hi) as (Ho1 & Hn1 & _).
      destruct (serve_instrumented_own w ep request Hi) as (Hf1 & Hl1 & _).
      rewrite Ho, Hn, Hf, Hl, Ho1, Hn1, Hf1. repeat split; lia.
    + rewrite (serve_uninstrumented w (ep, request) Hi) in Ho, Hn, Hf, Hl.
      rewrite (serve_uninstrumented w (ep, request) Hi).
      rewrite Ho, Hn, Hf, Hl. repeat split; lia.
Qed.

(** X6. The request records and the request counter agree: over any
    sequence of requests the number of request records (the records that
    begin with event=request, which only [index] and [hello] write) added
    to the log equals the number of increments added to the request
    counter, all label combinations together; from the start of the
    process the two are equal. *)
Theorem request_records_match_counter
  (rs : list (Endpoint * Request)) (w : World) :
  (request_records (serve_all rs w) + total_requests w
   = request_records w + total_requests (serve_all rs w))%nat
  /\ request_records (serve_all rs init_world)
     = total_requests (serve_all rs init_world).
Proof.
  assert (Hgen : forall rs0 w0,
            (request_records (serve_all rs0 w0) + total_requests w0
             = request_records w0 + total_requests (serve_all rs0 w0))%nat).
  { induction rs0 as [|[ep request] rs0 IH]; intros w0; [reflexivity|].
    cbn [serve_all fold_left].
    pose proof (IH (serve w0 (ep, request))) as Hrest.
    fold (serve_all rs0 (serve w0 (ep, request))) in Hrest |- *.
    destruct (instrumented ep) eqn:Hi.
    - destruct (serve_instrumented_own w0 ep request Hi) as (_ & _ & H1).
      lia.
    - rewrite (serve_uninstrumented w0 (ep, request) Hi) in Hrest |- *.
      exact Hrest. }
  split; [apply Hgen|].
  pose proof (Hgen rs init_world) as H. cbn in H. lia.
Qed.

(** ** Counters never go down *)

Lemma counter_value_serve w r l :
  (counter_value l w <= counter_value l (serve w r))%nat.
Proof.
  destruct r as [ep request]. unfold counter_value.
  destruct (serve_cases w ep) as [[Hi Hs]|Hno].
  - destruct (serve_counted w ep request Hi Hs) as (_ & Hc & _). rewrite Hc.
    destruct (labels3_eqb_spec (route_path ep, "GET", "200") l) as [<-|Hne].
    + rewrite (dict_get_update_same labels3_eqb labels3_eqb_spec).
      destruct (dict_get labels3_eqb _ (REQUESTS w)); lia.
    + rewrite (dict_get_update_other labels3_eqb labels3_eqb_spec);
        [lia | congruence].
  - destruct (serve_uncounted w ep request Hno) as (Hc & _). rewrite Hc. lia.
Qed.

Lemma counter_total_serve w r path method :
  (counter_total path method w <= counter_total path method (serve w r))%nat.
Proof.
  destruct r as [ep request].
  destruct (serve_cases w ep) as [[Hi Hs]|Hno].
  - destruct (serve_counted w ep request Hi Hs) as (_ & Hc & _).
    rewrite (counter_total_counted _ _ _ path method Hc). lia.
  - destruct (serve_uncounted w ep request Hno) as (Hc & _).
    unfold counter_total. rewrite Hc. lia.
Qed.

(** X7. The request counter is monotone: over any sequence of requests,
    from any state, no counter sample, no total over the statuses of a
    (path, method) and no total over all label combinations ever goes
    down. *)
Theorem counters_never_decrease (rs : list (Endpoint * Request)) (w : World) :
  (forall l, (counter_value l w <= counter_value l (serve_all rs w))%nat)
  /\ (forall path method,
        (counter_total path method w
         <= counter_total path method (serve_all rs w))%nat)
  /\ (total_requests w <= total_requests (serve_all rs w))%nat.
Proof.
  revert w. induction rs as [|r rs IH]; intros w.
  - repeat split; intros; apply Nat.le_refl.
  - cbn [serve_all fold_left].
    destruct (IH (serve w r)) as (Hv & Ht & Hall).
    fold (serve_all rs (serve w r)) in Hv, Ht, Hall |- *.
    repeat split.
    + intros l. eapply Nat.le_trans; [apply counter_value_serve | apply Hv].
    + intros path method.
      eapply Nat.le_trans; [apply counter_total_serve | apply Ht].
    + eapply Nat.le_trans; [|exact Hall].
      destruct r as [ep request]. destruct (instrumented ep) eqn:Hi.
      * destruct (serve_instrumented w ep request Hi) as (_ & _ & _ & Hl & Hr).
        destruct (serve_cases w ep) as [[_ Hs]|Hno].
        -- destruct (serve_counted w ep request Hi Hs) as (_ & Hc & _).
           unfold total_requests. rewrite Hc, total_update. lia.
        -- destruct (serve_uncounted w ep request Hno) as (Hc & _).
           unfold total_requests. rewrite Hc. lia.
      * rewrite (serve_uninstrumented w (ep, request) Hi). lia.
Qed.

(** ** The uninstrumented endpoints leave no trace *)

(** The handlers of /healthz and /metrics leave the state as it is, so a
    sequence and the same sequence without them end in the same state. *)
Lemma serve_all_skips_probes (rs : list (Endpoint * Request)) (w : World) :
  serve_all rs w = serve_all (filter to_instrumented rs) w.
Proof.
  revert w. induction rs as [|r rs IH]; intros w; [reflexivity|].
  cbn [serve_all fold_left filter].
  destruct (to_instrumented r) eqn:Hi.
  - cbn [fold_left]. apply IH.
  - unfold to_instrumented in Hi. rewrite (serve_uninstrumented w r Hi).
    apply IH.
Qed.

(** X8. Liveness probes and exports change no metric, wherever they come
    in a sequence of requests: with every GET /healthz and GET /metrics
    dropped from the sequence, every counter sample is the same and so is
    the count of every histogram. *)
Theorem probes_change_no_metric (rs : list (Endpoint * Request)) (w : World) :
  REQUESTS (serve_all rs w) = REQUESTS (serve_all (filter to_instrumented rs) w)
  /\ forall path method,
       hist_count path method (serve_all rs w)
       = hist_count path method (serve_all (filter to_instrumented rs) w).
Proof.
  rewrite <- (serve_all_skips_probes rs w). split; [reflexivity|].
  intros path method. reflexivity.
Qed.

(** X9. Metrics do not depend on what a request carries: in any state,
    two requests to instrumented endpoints with the same path label leave
    the same counters and the same histograms, whatever their names,
    headers and client addresses are. *)
Theorem metrics_ignore_request_data
  (w : World) (ep1 ep2 : Endpoint) (request1 request2 : Request) :
  instrumented ep1 = true ->
  instrumented ep2 = true ->
  route_path ep1 = route_path ep2 ->
  REQUESTS (serve w (ep1, request1)) = REQUESTS (serve w (ep2, request2))
  /\ REQ_LATENCY (serve w (ep1, request1))
     = REQ_LATENCY (serve w (ep2, request2)).
Proof.
  intros H1 H2 Hp.
  destruct (interrupt (naps w)) as [e|] eqn:Hs.
  - assert (Hno : forall ep : Endpoint,
              instrumented ep = false \/ interrupt (naps w) <> None).
    { intros ep. right. rewrite Hs. discriminate. }
    destruct (serve_uncounted w ep1 request1 (Hno ep1)) as (Hc1 & Hh1 & _).
    destruct (serve_uncounted w ep2 request2 (Hno ep2)) as (Hc2 & Hh2 & _).
    now rewrite Hc1, Hc2, Hh1, Hh2.
  - destruct (serve_counted w ep1 request1 H1 Hs) as (_ & Hc1 & Hh1).
    destruct (serve_counted w ep2 request2 H2 Hs) as (_ & Hc2 & Hh2).
    now rewrite Hc1, Hc2, Hh1, Hh2, Hp.
Qed.

(** X10. The duration a completed request logs is taken from a later
    clock reading than the latency it observes: while the clock is not set
    back, the observed latency is not negative and is at most the
    duration that is rounded into the duration_ms field of the record,
    for GET / and for GET /hello/name alike. *)
Theorem logged_duration_covers_latency (request : Request) (w : World) :
  clock_monotone ->
  interrupt (naps w) = None ->
  exists amount t2,
    0 <= amount
    /\ amount <= t2 - clock (ticks w)
    /\ In (EvObserve ("/", "GET") amount)
         (new_events w (snd (index request w)))
    /\ In (EvLog (logfmt (index_fields request (clock (ticks w)) t2)))
         (new_events w (snd (index request w)))
    /\ forall name,
         In (EvObserve ("/hello", "GET") amount)
           (new_events w (snd (hello request name w)))
         /\ In (EvLog (logfmt (hello_fields request name (clock (ticks w)) t2)))
              (new_events w (snd (hello request name w))).
Proof.
  intros Hm H.
  exists (latency w), (clock (S (S (ticks w)))).
  split; [now apply latency_nonneg|]. split.
  { unfold latency, Qminus. apply Qplus_le_l. apply Hm. }
  unfold new_events. rewrite (index_returns request w H).
  cbn [snd trace]. rewrite skipn_new. unfold latency.
  split; [simpl; auto 10|]. split; [simpl; auto 10|].
  intros name. rewrite (hello_returns request name w H).
  cbn [snd trace]. rewrite skipn_new. split; simpl; auto 10.
Qed.

End App.

(** ** The properties at work in the concrete environment *)

Example two_requests_counters :
  REQUESTS
    (serve_all Sample.float_str Sample.round1 Sample.clock Sample.calm
       Sample.content_type Sample.two_requests init_world)
  = [(("/", "GET", "200"), 1%nat); (("/hello", "GET", "200"), 1%nat)].
Proof. reflexivity. Qed.

Example two_requests_log :
  map message
    (log_sink
       (serve_all Sample.float_str Sample.round1 Sample.clock Sample.calm
          Sample.content_type Sample.two_requests init_world))
  = ["event=request path=/ method=GET status=200 duration_ms=80.0 client_ip=10.0.0.7 user_agent=curl_8.5.0";
     "event=request path=/hello method=GET status=200 name=world duration_ms=80.0 client_ip=10.0.0.7"].
Proof. vm_compute. reflexivity. Qed.

Example hello_events_by_phase :
  map phase_of
    (trace
       (serve_all Sample.float_str Sample.round1 Sample.clock Sample.calm
          Sample.content_type [(GetHello "world", Sample.request)]
          init_world))
  = [SPAN_OPEN; HANDLER_RUNNING; HANDLER_RUNNING; SPAN_CLOSED;
     METRICS_RECORDED; METRICS_RECORDED; LOGGED].
Proof. reflexivity. Qed.

Example cut_short_leaves_registry :
  REQUESTS
    (serve_all Sample.float_str Sample.round1 Sample.clock Sample.cut_short
       Sample.content_type Sample.two_requests init_world)
  = []
  /\ log_sink
       (serve_all Sample.float_str Sample.round1 Sample.clock Sample.cut_short
          Sample.content_type Sample.two_requests init_world)
     = [].
Proof. split; reflexivity. Qed.

Lemma sample_clock_monotone : clock_monotone Sample.clock.
Proof.
  intros n. unfold Sample.clock. apply Qmult_le_compat_r.
  - rewrite <- Zle_Qle. lia.
  - discriminate.
Qed.

(** C1: at the start of the process, with a sleep that is cut short, the
    amended statement applies to both handlers. *)
Lemma handler_failure_propagates_witness :
  Sample.cut_short (naps init_world) = Some (Exception "request timed out")
  /\ propagates
       (index Sample.float_str Sample.round1 Sample.clock Sample.cut_short
          Sample.request)
       (Exception "request timed out") init_world
  /\ forall name,
       propagates
         (hello Sample.float_str Sample.round1 Sample.clock Sample.cut_short
            Sample.request name)
         (Exception "request timed out") init_world.
Proof.
  split; [reflexivity|].
  apply (handler_failure_propagates Sample.float_str Sample.round1
           Sample.clock Sample.cut_short Sample.request init_world
           (Exception "request timed out")).
  reflexivity.
Defined.

(** C1 as stated fails: when the sleep of the body is cut short, neither
    handler answers 500, counts, times and logs the request; the exception
    leaves the handler and the registry and the log stay empty. *)
Lemma fail_safe_refuted :
  index Sample.float_str Sample.round1 Sample.clock Sample.cut_short
    Sample.request init_world
  = (Raise (Exception "request timed out"),
     mkWorld [] [] [] [] [mkSpan "index-handler" [] StatusError]
       [EvSpanStart "index-handler"; EvSleep (5 # 100);
        EvSpanEnd "index-handler" StatusError] 1 1)
  /\ ~ fail_safe
         (index Sample.float_str Sample.round1 Sample.clock Sample.cut_short
            Sample.request) "/" init_world
  /\ ~ fail_safe
         (hello Sample.float_str Sample.round1 Sample.clock Sample.cut_short
            Sample.request "world") "/hello" init_world.
Proof.
  split; [reflexivity|].
  split; intros (resp & w' & rec & Hrun & _); discriminate Hrun.
Qed.

(** C2: the scenario at the start of the process. *)
Lemma hello_world_scenario_witness :
  Sample.calm (naps init_world) = None
  /\ exists w' rec,
       hello Sample.float_str Sample.round1 Sample.clock Sample.calm
         Sample.request "world" init_world
       = (Return (mkResponse ("Hello world!" ++ Str.nl) 200 []), w')
       /\ counter_value ("/hello", "GET", "200") w'
          = S (counter_value ("/hello", "GET", "200") init_world)
       /\ (forall l, l <> ("/hello", "GET", "200") ->
             counter_value l w' = counter_value l init_world)
       /\ log_sink w' = (log_sink init_world ++ [rec])%list
       /\ forall asctime,
            Str.contains
              "event=request path=/hello method=GET status=200 name=world"
              (format_record asctime rec).
Proof.
  split; [reflexivity|].
  apply (hello_world_scenario Sample.float_str Sample.round1 Sample.clock
           Sample.calm Sample.request init_world).
  reflexivity.
Defined.

(** C3: after GET / and GET /hello/world the counts agree, one more
    GET / completes and adds one to the counter of its route, and the sum
    is not negative, the clock of the environment being monotone. *)
Lemma histogram_count_matches_counter_witness :
  clock_monotone Sample.clock
  /\ returned
       (fst (dispatch Sample.float_str Sample.round1 Sample.clock Sample.calm
               Sample.content_type GetIndex Sample.request
               (serve_all Sample.float_str Sample.round1 Sample.clock
                  Sample.calm Sample.content_type Sample.two_requests
                  init_world)))
     = true
  /\ hist_count "/hello" "GET"
       (serve_all Sample.float_str Sample.round1 Sample.clock Sample.calm
          Sample.content_type Sample.two_requests init_world)
     = counter_total "/hello" "GET"
         (serve_all Sample.float_str Sample.round1 Sample.clock Sample.calm
            Sample.content_type Sample.two_requests init_world)
  /\ counter_total "/" "GET"
       (serve Sample.float_str Sample.round1 Sample.clock Sample.calm
          Sample.content_type
          (serve_all Sample.float_str Sample.round1 Sample.clock Sample.calm
             Sample.content_type Sample.two_requests init_world)
          (GetIndex, Sample.request))
     = S (counter_total "/" "GET"
            (serve_all Sample.float_str Sample.round1 Sample.clock Sample.calm
               Sample.content_type Sample.two_requests init_world))
  /\ 0 <= hist_sum "/hello" "GET"
            (serve_all Sample.float_str Sample.round1 Sample.clock Sample.calm
               Sample.content_type Sample.two_requests init_world).
Proof.
  split; [exact sample_clock_monotone|].
  split; [reflexivity|].
  destruct (histogram_count_matches_counter Sample.float_str Sample.round1
              Sample.clock Sample.calm Sample.content_type
              Sample.two_requests) as (Hcount & Hstep & Hsum).
  split; [apply Hcount|]. split.
  - apply (Hstep GetIndex Sample.request); reflexivity.
  - apply (Hsum sample_clock_monotone).
Defined.

(** C3 as stated fails in its last part: the latency is the difference
    of two readings of the wall clock, and when the clock is set back
    between them, here from 1 to 1/2, the only observation is negative:
    the sum of the histogram goes from 0 down to -1/2. *)
Lemma negative_latency_refuted :
  ~ clock_monotone Sample.set_back
  /\ hist_sum "/" "GET"
       (serve_all Sample.float_str Sample.round1 Sample.set_back Sample.calm
          Sample.content_type [(GetIndex, Sample.request)] init_world)
     == - (1 # 2)
  /\ hist_sum "/" "GET"
       (serve_all Sample.float_str Sample.round1 Sample.set_back Sample.calm
          Sample.content_type [(GetIndex, Sample.request)] init_world)
     < hist_sum "/" "GET" init_world
  /\ ~ (forall clock rs path method,
          0 <= hist_sum path method
                 (serve_all Sample.float_str Sample.round1 clock Sample.calm
                    Sample.content_type rs init_world)).
Proof.
  split.
  { intros H. specialize (H O). apply Qle_bool_iff in H. discriminate H. }
  split; [reflexivity|]. split; [reflexivity|].
  intros H.
  specialize (H Sample.set_back [(GetIndex, Sample.request)] "/" "GET").
  apply Qle_bool_iff in H. discriminate H.
Qed.

(** C4 as stated fails: a tab is whitespace, and [logfmt] leaves it in the
    value, where the statement puts an underscore. *)
Lemma logfmt_keeps_tab :
  logfmt Sample.float_str Sample.tabbed = "name=a" ++ Str.tab ++ "b"
  /\ spec_log_line Sample.float_str Sample.tabbed = "name=a_b"
  /\ ~ (forall fields,
          logfmt Sample.float_str fields
          = spec_log_line Sample.float_str fields).
Proof.
  split; [reflexivity|]. split; [reflexivity|].
  intros H. specialize (H Sample.tabbed). discriminate H.
Qed.

(** C5 as stated fails: an invocation whose body is cut short stops after
    the span is closed; the metrics and the log line are skipped. *)
Lemma interrupted_run_skips_steps :
  phases_of_run
    (index Sample.float_str Sample.round1 Sample.clock Sample.cut_short
       Sample.request) init_world
  = [STARTED; SPAN_OPEN; HANDLER_RUNNING; SPAN_CLOSED]
  /\ ~ (forall interrupt request w,
          phases_of_run
            (index Sample.float_str Sample.round1 Sample.clock interrupt
               request) w
          = all_phases).
Proof.
  split; [reflexivity|].
  intros H.
  specialize (H Sample.cut_short Sample.request init_world).
  discriminate H.
Qed.

(** C8: after GET /hello/world, a liveness probe and an export, the
    export holds the sample line of that request with the value 1. *)
Lemma metrics_reports_counters_witness :
  returned
    (fst (dispatch Sample.float_str Sample.round1 Sample.clock Sample.calm
            Sample.content_type (GetHello "world") Sample.request init_world))
  = true
  /\ exists body,
       fst (metrics Sample.float_str Sample.content_type
              (serve_all Sample.float_str Sample.round1 Sample.clock
                 Sample.calm Sample.content_type Sample.probes
                 (serve Sample.float_str Sample.round1 Sample.clock
                    Sample.calm Sample.content_type init_world
                    (GetHello "world", Sample.request))))
       = Return (mkResponse body 200 [("Content-Type", Sample.content_type)])
       /\ Str.contains
            ("app_requests_total{method=" ++ Str.dquote ++ "GET" ++ Str.dquote
             ++ ",path=" ++ Str.dquote ++ "/hello" ++ Str.dquote
             ++ ",status=" ++ Str.dquote ++ "200" ++ Str.dquote
             ++ "} 1.0" ++ Str.nl)
            body.
Proof.
  split; [reflexivity|].
  destruct (metrics_reports_counters Sample.float_str Sample.round1
              Sample.clock Sample.calm Sample.content_type
              (serve_all Sample.float_str Sample.round1 Sample.clock
                 Sample.calm Sample.content_type Sample.probes
                 (serve Sample.float_str Sample.round1 Sample.clock
                    Sample.calm Sample.content_type init_world
                    (GetHello "world", Sample.request))))
    as (body & Hrun & Hall & _).
  exists body. split.
  - rewrite Hrun. reflexivity.
  - apply (Hall "/hello" "GET" "200" 1%nat). reflexivity.
Defined.

(** C9: the request of the command-line client; its header is short, so
    it is logged whole, with an underscore for the space. *)
Lemma index_logs_user_agent_witness :
  Sample.calm (naps init_world) = None
  /\ exists resp w' rec prefix,
       index Sample.float_str Sample.round1 Sample.clock Sample.calm
         Sample.request init_world
       = (Return resp, w')
       /\ log_sink w' = [rec]
       /\ message rec = prefix ++ " user_agent=curl_8.5.0".
Proof.
  split; [reflexivity|].
  destruct (index_logs_user_agent Sample.float_str Sample.round1 Sample.clock
              Sample.calm Sample.request init_world eq_refl)
    as (resp & w' & rec & prefix & Hrun & Hlog & Hmsg & _).
  exists resp, w', rec, prefix. repeat split; assumption.
Defined.

(** X1: fields whose values hold an equals sign and a space read back. *)
Lemma logfmt_reads_back_witness :
  Sample.tricky <> []
  /\ forallb (fun kv => plain_key (fst kv)) Sample.tricky = true
  /\ logfmt Sample.float_str Sample.tricky = "query=a=b_c n=7"
  /\ parse_logfmt (logfmt Sample.float_str Sample.tricky)
     = [Some ("query", "a=b_c"); Some ("n", "7")].
Proof.
  split; [discriminate|]. split; [reflexivity|]. split; [reflexivity|].
  apply (logfmt_reads_back Sample.float_str Sample.tricky);
    [discriminate | reflexivity].
Defined.

(** X2: a name written to look like further fields stays one field; a
    tab in a name stays a tab inside the value of that field. *)
Lemma request_message_reads_back_witness :
  Sample.calm (naps init_world) = None
  /\ (exists rec,
        log_sink
          (snd (hello Sample.float_str Sample.round1 Sample.clock Sample.calm
                  Sample.request Sample.forged init_world))
        = [rec]
        /\ map (option_map fst) (parse_logfmt (message rec))
           = [Some "event"; Some "path"; Some "method"; Some "status";
              Some "name"; Some "duration_ms"; Some "client_ip"]
        /\ nth_error (parse_logfmt (message rec)) 4
           = Some (Some ("name", "x_status=500_event=login")))
  /\ exists rec,
       log_sink
         (snd (hello Sample.float_str Sample.round1 Sample.clock Sample.calm
                 Sample.request Sample.tab_name init_world))
       = [rec]
       /\ nth_error (parse_logfmt (message rec)) 4
          = Some (Some ("name", "x" ++ Str.tab ++ "status=500")).
Proof.
  split; [reflexivity|].
  destruct (request_message_reads_back Sample.float_str Sample.round1
              Sample.clock Sample.calm Sample.request init_world eq_refl)
    as [Hhello _].
  split.
  - destruct (Hhello Sample.forged) as (rec & Hlog & Hparse).
    exists rec. split; [exact Hlog|]. rewrite Hparse. split; reflexivity.
  - destruct (Hhello Sample.tab_name) as (rec & Hlog & Hparse).
    exists rec. split; [exact Hlog|]. rewrite Hparse. reflexivity.
Defined.

(** X3: the line break of a name stands in the message, at the place of
    the second character of the name. *)
Lemma hello_writes_name_in_place_witness :
  Sample.calm (naps init_world) = None
  /\ exists rec rest,
       log_sink
         (snd (hello Sample.float_str Sample.round1 Sample.clock Sample.calm
                 Sample.request Sample.two_lines init_world))
       = [rec]
       /\ message rec = before_name ++ "a" ++ Str.nl ++ "b" ++ rest
       /\ String.get 54 (message rec) = Some (ascii_of_nat 10).
Proof.
  split; [reflexivity|].
  destruct (hello_writes_name_in_place Sample.float_str Sample.round1
              Sample.clock Sample.calm Sample.request Sample.two_lines
              init_world eq_refl)
    as (rec & rest & Hlog & Hmsg & _ & Hget).
  exists rec, rest. split; [exact Hlog|]. split; [exact Hmsg|].
  exact (Hget 1%nat (ascii_of_nat 10) eq_refl).
Defined.

(** X9: two different clients and two different names, the same metrics. *)
Lemma metrics_ignore_request_data_witness :
  instrumented (GetHello "world") = true
  /\ instrumented (GetHello Sample.forged) = true
  /\ route_path (GetHello "world") = route_path (GetHello Sample.forged)
  /\ REQUESTS
       (serve Sample.float_str Sample.round1 Sample.clock Sample.calm
          Sample.content_type init_world (GetHello "world", Sample.request))
     = REQUESTS
         (serve Sample.float_str Sample.round1 Sample.clock Sample.calm
            Sample.content_type init_world
            (GetHello Sample.forged, Sample.other_request))
  /\ REQ_LATENCY
       (serve Sample.float_str Sample.round1 Sample.clock Sample.calm
          Sample.content_type init_world (GetHello "world", Sample.request))
     = REQ_LATENCY
         (serve Sample.float_str Sample.round1 Sample.clock Sample.calm
            Sample.content_type init_world
            (GetHello Sample.forged, Sample.other_request)).
Proof.
  split; [reflexivity|]. split; [reflexivity|]. split; [reflexivity|].
  apply (metrics_ignore_request_data Sample.float_str Sample.round1
           Sample.clock Sample.calm Sample.content_type init_world
           (GetHello "world") (GetHello Sample.forged) Sample.request
           Sample.other_request); reflexivity.
Defined.

(** X10: with the clock of the environment, 40 ms are observed and 80 ms
    go into the record. *)
Lemma logged_duration_covers_latency_witness :
  clock_monotone Sample.clock
  /\ Sample.calm (naps init_world) = None
  /\ exists amount t2,
       0 <= amount
       /\ amount <= t2 - Sample.clock (ticks init_world)
       /\ In (EvObserve ("/", "GET") amount)
            (new_events init_world
               (snd (index Sample.float_str Sample.round1 Sample.clock
                       Sample.calm Sample.request init_world))).
Proof.
  split; [exact sample_clock_monotone|]. split; [reflexivity|].
  destruct (logged_duration_covers_latency Sample.float_str Sample.round1
              Sample.clock Sample.calm Sample.request init_world
              sample_clock_monotone eq_refl)
    as (amount & t2 & H0 & Hle & Hobs & _).
  exists amount, t2. repeat split; assumption.
Defined.

(** X5, X6 and X8 on a mixed sequence: two instrumented requests among
    three probes leave two handler spans, two request records and two
    increments. *)
Example mixed_sequence_counts :
  count_instrumented Sample.mixed = 2%nat
  /\ handler_spans
       (serve_all Sample.float_str Sample.round1 Sample.clock Sample.calm
          Sample.content_type Sample.mixed init_world)
     = 2%nat
  /\ request_records
       (serve_all Sample.float_str Sample.round1 Sample.clock Sample.calm
          Sample.content_type Sample.mixed init_world)
     = 2%nat
  /\ total_requests
       (serve_all Sample.float_str Sample.round1 Sample.clock Sample.calm
          Sample.content_type Sample.mixed init_world)
     = 2%nat
  /\ failed_handler_spans
       (serve_all Sample.float_str Sample.round1 Sample.clock
          Sample.cut_short Sample.content_type Sample.mixed init_world)
     = 2%nat.
Proof. repeat split; reflexivity. Qed.
